(** * pywhisker: the KeyCredentialLink decoder and the ShadowCredentials
      read/write/remove/flush actions of [pywhisker.py]

    The development follows the layout of the script: first the values of
    the Python runtime the script relies on ([bytes], [struct.unpack],
    [hex], [binascii], [base64], exceptions), then the decoder classes and
    helpers ([CustomKeyInformation], [ConvertToBinaryIdentifier], [Guid],
    [ConvertFromBinaryTime], [DN_binary_KeyCredentialLink]), then the
    [ShadowCredentials] class over an LDAP session, and finally the
    properties. *)

From Stdlib Require Import ZArith NArith List String Ascii Bool Lia.
From Stdlib.Strings Require Import Byte.
From Stdlib Require HexString DecimalString.
From Equations Require Import Equations.
Import ListNotations.

Local Open Scope string_scope.
Local Open Scope Z_scope.

(** ** Python runtime *)

Module Py.

(** The exceptions the script can raise.  [NameError] carries the name
    that is not bound, [AttributeError] the attribute that is not set. *)
Inductive exn : Type :=
| IndexError
| TypeError
| NameError (name : string)
| AttributeError (attr : string)
| struct_error
| binascii_Error
| ValueError
| UnicodeDecodeError
| OverflowError.

(** The outcome of evaluating an expression: a value or a raised exception. *)
Inductive result (A : Type) : Type :=
| Ok (a : A)
| Raise (e : exn).
Arguments Ok {A} a.
Arguments Raise {A} e.

Definition bind {A B} (r : result A) (k : A -> result B) : result B :=
  match r with
  | Ok a => k a
  | Raise e => Raise e
  end.

Definition raises {A} (r : result A) : Prop := exists e, r = Raise e.

(** [bytes] objects. *)
Definition bytes := list byte.

Definition byte_val (b : byte) : Z := Z.of_N (Byte.to_N b).

(** Slices clamp to the length of the sequence: [data[i:j]]. *)
Definition slice {A} (i j : nat) (l : list A) : list A :=
  firstn (j - i) (skipn i l).

(** [io.BytesIO]: the stream is the bytes not yet read.  [read n] returns at
    most [n] bytes, fewer when the stream runs out. *)
Definition read (n : nat) (stream : bytes) : bytes * bytes :=
  (firstn n stream, skipn n stream).

(** [struct.unpack] of one unsigned little-endian integer of [n] bytes;
    a buffer of any other size raises [struct.error]. *)
Fixpoint le_int (bs : bytes) : Z :=
  match bs with
  | [] => 0
  | b :: rest => byte_val b + 256 * le_int rest
  end.

Definition unpack_le (n : nat) (bs : bytes) : result Z :=
  if Nat.eqb (List.length bs) n then Ok (le_int bs) else Raise struct_error.

Definition unpack_be (n : nat) (bs : bytes) : result Z :=
  unpack_le n (rev bs).

(** [hex(n)], and [s[2:]]. *)
Definition hex (n : Z) : string := HexString.of_Z n.

Definition drop (n : nat) (s : string) : string :=
  substring n (String.length s - n) s.

(** [s.rjust(width, fill)] for a one-character [fill]. *)
Fixpoint replicate (n : nat) (c : ascii) : string :=
  match n with
  | O => EmptyString
  | S n' => String c (replicate n' c)
  end.

Definition rjust (width : nat) (fill : ascii) (s : string) : string :=
  replicate (width - String.length s) fill ++ s.

Definition ljust (width : nat) (fill : ascii) (s : string) : string :=
  s ++ replicate (width - String.length s) fill.

(** [binascii.hexlify]: two lowercase digits per byte. *)
Definition hex_digit (n : Z) : ascii :=
  if n <? 10 then ascii_of_N (Z.to_N (48 + n)) else ascii_of_N (Z.to_N (87 + n)).

Fixpoint hexlify (bs : bytes) : string :=
  match bs with
  | [] => EmptyString
  | b :: rest =>
      String (hex_digit (byte_val b / 16))
        (String (hex_digit (byte_val b mod 16)) (hexlify rest))
  end.

Definition byte_of_Z (n : Z) : byte :=
  match Byte.of_N (Z.to_N n) with
  | Some b => b
  | None => x00
  end.

(** [binascii.unhexlify] of a [bytes] object: an odd length or a character
    that is not a hexadecimal digit raises [binascii.Error]. *)
Definition hex_value (b : byte) : option Z :=
  let v := byte_val b in
  if (48 <=? v) && (v <=? 57) then Some (v - 48)
  else if (97 <=? v) && (v <=? 102) then Some (v - 87)
  else if (65 <=? v) && (v <=? 70) then Some (v - 55)
  else None.

Fixpoint unhexlify (s : bytes) : result bytes :=
  match s with
  | [] => Ok []
  | [_] => Raise binascii_Error
  | hi :: lo :: rest =>
      match hex_value hi, hex_value lo with
      | Some h, Some l =>
          match unhexlify rest with
          | Ok out => Ok (byte_of_Z (16 * h + l) :: out)
          | Raise e => Raise e
          end
      | _, _ => Raise binascii_Error
      end
  end.

(** A [str] is kept as its UTF-8 encoding.  [binascii.unhexlify] of a [str]
    first requires it to be ASCII ([ValueError] otherwise). *)
Definition is_ascii (s : bytes) : bool :=
  forallb (fun b => byte_val b <? 128) s.

Definition unhexlify_str (s : string) : result bytes :=
  let bs := list_byte_of_string s in
  if is_ascii bs then unhexlify bs else Raise ValueError.

(** [b.decode('UTF-8')]: strict decoding; ill-formed input raises
    [UnicodeDecodeError]. *)
Definition in_range (lo hi : Z) (b : byte) : bool :=
  (lo <=? byte_val b) && (byte_val b <=? hi).

Fixpoint utf8_valid (s : bytes) : bool :=
  match s with
  | [] => true
  | b0 :: t0 =>
      let v := byte_val b0 in
      if v <? 128 then utf8_valid t0
      else if in_range 194 223 b0 then
        match t0 with
        | b1 :: t1 => in_range 128 191 b1 && utf8_valid t1
        | _ => false
        end
      else if in_range 224 239 b0 then
        match t0 with
        | b1 :: b2 :: t2 =>
            (if v =? 224 then in_range 160 191 b1
             else if v =? 237 then in_range 128 159 b1
             else in_range 128 191 b1)
            && in_range 128 191 b2 && utf8_valid t2
        | _ => false
        end
      else if in_range 240 244 b0 then
        match t0 with
        | b1 :: b2 :: b3 :: t3 =>
            (if v =? 240 then in_range 144 191 b1
             else if v =? 244 then in_range 128 143 b1
             else in_range 128 191 b1)
            && in_range 128 191 b2 && in_range 128 191 b3 && utf8_valid t3
        | _ => false
        end
      else false
  end.

Definition decode_utf8 (b : bytes) : result string :=
  if utf8_valid b then Ok (string_of_list_byte b) else Raise UnicodeDecodeError.

(** [s.split(":")]: always at least one field. *)
Fixpoint split_colon (s : string) : list string :=
  match s with
  | EmptyString => [EmptyString]
  | String c rest =>
      match split_colon rest with
      | cur :: more =>
          if Ascii.eqb c ":" then EmptyString :: cur :: more
          else String c cur :: more
      | [] => [String c EmptyString]
      end
  end.

(** [l[i]] raises [IndexError] out of range. *)
Definition index {A} (l : list A) (i : nat) : result A :=
  match nth_error l i with
  | Some a => Ok a
  | None => Raise IndexError
  end.

(** [base64.b64decode(s)] with its default [validate=False], that is
    [binascii.a2b_base64] in its lenient mode: characters outside the
    alphabet are skipped, a pad sequence that completes a quad ends the
    decoding, and an incomplete quad at the end raises [binascii.Error]. *)
Definition b64_value (b : byte) : option Z :=
  let v := byte_val b in
  if (65 <=? v) && (v <=? 90) then Some (v - 65)
  else if (97 <=? v) && (v <=? 122) then Some (v - 71)
  else if (48 <=? v) && (v <=? 57) then Some (v + 4)
  else if v =? 43 then Some 62
  else if v =? 47 then Some 63
  else None.

Fixpoint a2b_base64 (s : bytes) (quad_pos : nat) (leftchar : Z) (pads : nat)
    (out : bytes) : result bytes :=
  match s with
  | [] =>
      match quad_pos with
      | O => Ok (rev out)
      | _ => Raise binascii_Error
      end
  | ch :: rest =>
      if byte_val ch =? 61 then
        if Nat.leb 2 quad_pos then
          if Nat.leb 4 (quad_pos + S pads) then Ok (rev out)
          else a2b_base64 rest quad_pos leftchar (S pads) out
        else a2b_base64 rest quad_pos leftchar pads out
      else
        match b64_value ch with
        | None => a2b_base64 rest quad_pos leftchar pads out
        | Some this_ch =>
            match quad_pos with
            | 0%nat => a2b_base64 rest 1 this_ch 0 out
            | 1%nat =>
                a2b_base64 rest 2 (Z.land this_ch 15) 0
                  (byte_of_Z (Z.lor (Z.shiftl leftchar 2) (Z.shiftr this_ch 4)) :: out)
            | 2%nat =>
                a2b_base64 rest 3 (Z.land this_ch 3) 0
                  (byte_of_Z (Z.lor (Z.shiftl leftchar 4) (Z.shiftr this_ch 2)) :: out)
            | _ =>
                a2b_base64 rest 0 0 0
                  (byte_of_Z (Z.lor (Z.shiftl leftchar 6) this_ch) :: out)
            end
        end
  end.

Definition b64decode (s : bytes) : result bytes := a2b_base64 s 0 0 0 [].

(** [data.rjust(width, fillchar)] on a [bytes] object: [fillchar] has to be
    a [bytes] object of length 1.  Any other argument, a [str] in
    particular, raises [TypeError] when the call is made, whatever the
    width. *)
Inductive pyarg : Type :=
| ArgBytes (b : bytes)
| ArgStr (s : string).

Definition bytes_rjust (width : nat) (fillchar : pyarg) (data : bytes) : result bytes :=
  match fillchar with
  | ArgBytes [c] => Ok (List.repeat c (width - List.length data) ++ data)%list
  | _ => Raise TypeError
  end.

End Py.

Import Py.

Declare Scope py_scope.
Delimit Scope py_scope with py.
Notation "x <- c1 ;; c2" := (Py.bind c1 (fun x => c2))
  (at level 61, c1 at next level, right associativity) : py_scope.
Local Open Scope py_scope.

(** ** Helpers of the decoder *)

(** [Guid(data)]: five groups; the first three come from little-endian
    integers printed with [hex] and right-justified to 4, 2 and 2 characters,
    the fourth from a big-endian integer justified to 2, the last is the
    hexlified tail justified to 6. *)
Definition Guid (data : bytes) : result string :=
  a <- unpack_le 4 (slice 0 4 data) ;;
  b <- unpack_le 2 (slice 4 6 data) ;;
  c <- unpack_le 2 (slice 6 8 data) ;;
  d <- unpack_be 2 (slice 8 10 data) ;;
  let a := rjust 4 "0" (drop 2 (hex a)) in
  let b := rjust 2 "0" (drop 2 (hex b)) in
  let c := rjust 2 "0" (drop 2 (hex c)) in
  let d := rjust 2 "0" (drop 2 (hex d)) in
  let e := rjust 6 "0" (hexlify (slice 10 16 data)) in
  Ok (a ++ "-" ++ b ++ "-" ++ c ++ "-" ++ d ++ "-" ++ e).

(** The canonical rendering, for comparison: groups of 8, 4, 4, 4 and 12
    digits. *)
Definition Guid_canonical (data : bytes) : result string :=
  a <- unpack_le 4 (slice 0 4 data) ;;
  b <- unpack_le 2 (slice 4 6 data) ;;
  c <- unpack_le 2 (slice 6 8 data) ;;
  d <- unpack_be 2 (slice 8 10 data) ;;
  let a := rjust 8 "0" (drop 2 (hex a)) in
  let b := rjust 4 "0" (drop 2 (hex b)) in
  let c := rjust 4 "0" (drop 2 (hex c)) in
  let d := rjust 4 "0" (drop 2 (hex d)) in
  let e := rjust 12 "0" (hexlify (slice 10 16 data)) in
  Ok (a ++ "-" ++ b ++ "-" ++ c ++ "-" ++ d ++ "-" ++ e).

(** The sixteen bytes of the GUID 00112233-4455-6677-8899-aabbccddeeff. *)
Definition guid_bytes : bytes :=
  [x33; x22; x11; x00; x55; x44; x77; x66; x88; x99; xaa; xbb; xcc; xdd; xee; xff].

(** ** Enumerations *)

Module KeyCredentialEntryType.
Definition KeyID : Z := 1.
Definition KeyHash : Z := 2.
Definition KeyMaterial : Z := 3.
Definition KeyUsage : Z := 4.
Definition KeySource : Z := 5.
Definition DevideId : Z := 6.
Definition CustomKeyInformation : Z := 7.
Definition KeyApproximateLastLogonTimeStamp : Z := 8.
Definition KeyCreationTime : Z := 9.
End KeyCredentialEntryType.

Module KeyCredentialVersion.
Definition Version0 : Z := 0.
Definition Version1 : Z := 256.
Definition Version2 : Z := 512.
End KeyCredentialVersion.

Module KeySource.
Definition AD : Z := 0.
Definition AzureAD : Z := 1.
Definition OTHER : Z := 0.
End KeySource.

Module KeyUsage.
Definition AdminKey : Z := 0.
Definition NGC : Z := 1.
Definition STK : Z := 2.
Definition BitLockerRecovery : Z := 3.
Definition FIDO : Z := 7.
Definition FEK : Z := 8.
Definition OTHER : Z := 0.
End KeyUsage.

(** ** [CustomKeyInformation] *)

Record CustomKeyInformation_obj : Type := {
  Version : Z;
  Flags : Z;
  VolumeType : option Z;
  SupportsNotification : option bool;
  FekKeyVersion : option Z;
  Strength : option Z;
  Reserved : option bytes;
  EncodedExtendedCKI : option bytes
}.

(** One optional one-byte field: [data = stream_data.read(1)], unpacked when
    [len(data) != 0], [None] otherwise. *)
Definition optional_B (stream : bytes) : result (option Z) * bytes :=
  let '(data, stream) := read 1 stream in
  match data with
  | [] => (Ok None, stream)
  | _ => (v <- unpack_le 1 data ;; Ok (Some v), stream)
  end.

(** [CustomKeyInformation.__init__(keyMaterial, version)].  The reserved field
    is built by [data.rjust(10,'b\x00')], with a [str] of two characters as
    fill argument. *)
Definition CustomKeyInformation (keyMaterial : bytes) (version : Z)
  : result CustomKeyInformation_obj :=
  let stream_data := keyMaterial in
  let '(data, stream_data) := read 1 stream_data in
  Version <- unpack_le 1 data ;;
  let '(data, stream_data) := read 1 stream_data in
  Flags <- unpack_le 1 data ;;
  let '(r, stream_data) := optional_B stream_data in
  VolumeType <- r ;;
  let '(r, stream_data) := optional_B stream_data in
  SupportsNotification <- r ;;
  let '(r, stream_data) := optional_B stream_data in
  FekKeyVersion <- r ;;
  let '(r, stream_data) := optional_B stream_data in
  Strength <- r ;;
  let '(data, stream_data) := read 10 stream_data in
  Reserved <- match data with
              | [] => Ok None
              | _ => r <- bytes_rjust 10 (ArgStr (String "b" (String Ascii.zero EmptyString))) data ;;
                     Ok (Some r)
              end ;;
  let data := stream_data in
  let EncodedExtendedCKI := match data with [] => None | _ => Some data end in
  Ok {| Version := Version;
        Flags := Flags;
        VolumeType := VolumeType;
        SupportsNotification := option_map (fun v => negb (v =? 0)) SupportsNotification;
        FekKeyVersion := FekKeyVersion;
        Strength := Strength;
        Reserved := Reserved;
        EncodedExtendedCKI := EncodedExtendedCKI |}.

(** ** [ConvertToBinaryIdentifier] *)

Definition ConvertToBinaryIdentifier (keyIdentifier : bytes) (version : Z) : result bytes :=
  if (version =? KeyCredentialVersion.Version0) || (version =? KeyCredentialVersion.Version1)
  then unhexlify keyIdentifier
  else if version =? KeyCredentialVersion.Version2
  then b64decode keyIdentifier
  else b64decode keyIdentifier.

(** ** The TLV records of the blob *)

Record Row : Type := {
  entryType : Z;
  value : bytes
}.

(** The [while read_data != b''] loop: a header of three bytes is unpacked
    with ['<HB'], then [stream_data.read(length)] is taken as the value. *)
Equations? read_entries (stream_data : bytes) : result (list Row)
  by wf (List.length stream_data) lt :=
  read_entries [] := Ok [];
  read_entries (b0 :: b1 :: b2 :: rest) :=
    let length := Z.to_nat (le_int [b0; b1]) in
    rows <- read_entries (skipn length rest) ;;
    Ok ({| entryType := byte_val b2; value := firstn length rest |} :: rows);
  read_entries _ := Raise struct_error.
Proof.
  cbn. rewrite length_skipn. lia.
Qed.

(** ** [ConvertFromBinaryTime] and [DN_binary_KeyCredentialLink] *)

(** [datetime.datetime(1601, 1, 1, 0, 0, 0) + datetime.timedelta(seconds=timeStamp/1e7)]
    is computed by the interpreter in floating point and raises
    [OverflowError] past year 9999; the decoder is modelled over that
    operation. *)
Class Clock : Type := {
  datetime : Type;
  datetime_1601_plus : Z -> result datetime
}.

Section KeyCredentialLink.

Context {clock : Clock}.

Definition not_fully_supported : string :=
  "This is not fully supported right now, you may encounter issues. Please contact us @podalirius_ @_nwodtuhs".

(** Returns the lines printed and the outcome. *)
Definition ConvertFromBinaryTime (binaryTime : bytes) (source version : Z)
  : list string * result datetime :=
  match unpack_le 8 binaryTime with
  | Raise e => ([], Raise e)
  | Ok timeStamp =>
      if version =? KeyCredentialVersion.Version0 then ([], datetime_1601_plus timeStamp)
      else if version =? KeyCredentialVersion.Version1 then ([], datetime_1601_plus timeStamp)
      else if version =? KeyCredentialVersion.Version2 then
        if source =? KeySource.AD then ([], datetime_1601_plus timeStamp)
        else ([not_fully_supported], datetime_1601_plus timeStamp)
      else
        if source =? KeySource.AD then ([], datetime_1601_plus timeStamp)
        else ([not_fully_supported], datetime_1601_plus timeStamp)
  end.

(** The values stored in [parsed_data]. *)
Inductive pyvalue : Type :=
| VInt (n : Z)
| VBytes (b : bytes)
| VStr (s : string)
| VDatetime (d : datetime)
| VCustomKeyInformation (c : CustomKeyInformation_obj).

(** A [dict] with string keys: assignment to a key already present keeps
    its position. *)
Definition dict := list (string * pyvalue).

Fixpoint dict_set (d : dict) (k : string) (v : pyvalue) : dict :=
  match d with
  | [] => [(k, v)]
  | (k', v') :: rest =>
      if String.eqb k' k then (k, v) :: rest else (k', v') :: dict_set rest k v
  end.

Fixpoint dict_get (d : dict) (k : string) : option pyvalue :=
  match d with
  | [] => None
  | (k', v') :: rest => if String.eqb k' k then Some v' else dict_get rest k
  end.

(** The attributes of a [DN_binary_KeyCredentialLink] object.  [source] is
    an attribute only once a KeySource record has been parsed. *)
Record DN_binary_KeyCredentialLink_obj : Type := {
  structure_dn : string;
  version : Z;
  parsed_data : dict;
  source : option Z
}.

Definition set_parsed (self : DN_binary_KeyCredentialLink_obj) (k : string) (v : pyvalue)
  : DN_binary_KeyCredentialLink_obj :=
  {| structure_dn := structure_dn self;
     version := version self;
     parsed_data := dict_set (parsed_data self) k v;
     source := source self |}.

Definition set_source (self : DN_binary_KeyCredentialLink_obj) (s : Z)
  : DN_binary_KeyCredentialLink_obj :=
  {| structure_dn := structure_dn self;
     version := version self;
     parsed_data := parsed_data self;
     source := Some s |}.

(** Reading [self.source]. *)
Definition get_source (self : DN_binary_KeyCredentialLink_obj) : result Z :=
  match source self with
  | Some s => Ok s
  | None => Raise (AttributeError "source")
  end.

Definition pure_row {A} (r : result A) : list string * result A := ([], r).

Definition timestamp_row (self : DN_binary_KeyCredentialLink_obj) (key : string) (row : Row)
  : list string * result DN_binary_KeyCredentialLink_obj :=
  match get_source self with
  | Raise e => ([], Raise e)
  | Ok src =>
      let '(printed, r) := ConvertFromBinaryTime (value row) src (version self) in
      (printed, t <- r ;; Ok (set_parsed self key (VDatetime t)))
  end.

(** The body of [for row in data]: the chain of [if]/[elif] on the entry
    type. *)
Definition parse_row (self : DN_binary_KeyCredentialLink_obj) (row : Row)
  : list string * result DN_binary_KeyCredentialLink_obj :=
  let ty := entryType row in
  if ty =? KeyCredentialEntryType.KeyID then
    pure_row (k <- ConvertToBinaryIdentifier (value row) (version self) ;;
              Ok (set_parsed self "KeyID" (VBytes k)))
  else if ty =? KeyCredentialEntryType.KeyHash then
    pure_row (Ok self)
  else if ty =? KeyCredentialEntryType.KeyMaterial then
    pure_row (Ok (set_parsed self "KeyMaterial" (VBytes (value row))))
  else if ty =? KeyCredentialEntryType.KeyUsage then
    match value row with
    | [b] => pure_row (Ok (set_parsed self "Usage" (VInt (byte_val b))))
    | v => pure_row (s <- decode_utf8 v ;; Ok (set_parsed self "LegacyUsage" (VStr s)))
    end
  else if ty =? KeyCredentialEntryType.KeySource then
    pure_row (b <- index (value row) 0 ;;
              let self := set_parsed self "KeySource" (VInt (byte_val b)) in
              Ok (set_source self (byte_val b)))
  else if ty =? KeyCredentialEntryType.DevideId then
    pure_row (g <- Guid (value row) ;; Ok (set_parsed self "DevideId" (VStr g)))
  else if ty =? KeyCredentialEntryType.CustomKeyInformation then
    pure_row (c <- CustomKeyInformation (value row) (version self) ;;
              Ok (set_parsed self "CustomKeyInfo" (VCustomKeyInformation c)))
  else if ty =? KeyCredentialEntryType.KeyApproximateLastLogonTimeStamp then
    timestamp_row self "KeyApproximateLastLogonTimeStamp" row
  else if ty =? KeyCredentialEntryType.KeyCreationTime then
    timestamp_row self "KeyCreationTime" row
  else pure_row (Ok self).

Fixpoint parse_rows (self : DN_binary_KeyCredentialLink_obj) (data : list Row)
  : list string * result DN_binary_KeyCredentialLink_obj :=
  match data with
  | [] => ([], Ok self)
  | row :: rest =>
      match parse_row self row with
      | (printed, Ok self') =>
          let '(printed', r) := parse_rows self' rest in
          ((printed ++ printed')%list, r)
      | (printed, Raise e) => (printed, Raise e)
      end
  end.

(** The part of the constructor that works on [binary_data]: the version,
    the records, and their interpretation. *)
Definition parse_binary_data (dn : string) (binary_data : bytes)
  : list string * result DN_binary_KeyCredentialLink_obj :=
  let '(head, stream_data) := read 4 binary_data in
  match unpack_le 4 head with
  | Raise e => ([], Raise e)
  | Ok version =>
      match read_entries stream_data with
      | Raise e => ([], Raise e)
      | Ok data =>
          parse_rows {| structure_dn := dn;
                        version := version;
                        parsed_data := [("version", VInt version)];
                        source := None |} data
      end
  end.

(** [DN_binary_KeyCredentialLink.__init__(raw_data)]. *)
Definition DN_binary_KeyCredentialLink (raw_data : bytes)
  : list string * result DN_binary_KeyCredentialLink_obj :=
  match decode_utf8 raw_data with
  | Raise e => ([], Raise e)
  | Ok text =>
      let data := split_colon text in
      match (field <- index data 2 ;; unhexlify_str field) with
      | Raise e => ([], Raise e)
      | Ok binary_data =>
          match index data 3 with
          | Raise e => ([], Raise e)
          | Ok dn => parse_binary_data dn binary_data
          end
      end
  end.

End KeyCredentialLink.

(** ** The collaborators of [ShadowCredentials] *)

(** [logging] records. *)
Inductive level : Type := INFO | ERROR.

(** An entry of [ldap_session.entries]: its DN, its [objectSid] as
    [format_sid] prints it, and its [samaccountname]. *)
Record ldap_entry : Type := {
  entry_dn : string;
  objectSid : string;
  samaccountname : string
}.

(** An element of [ldap_session.response]: [entry['type']], [entry['dn']] and
    [entry['raw_attributes']['msDS-KeyCredentialLink']] (the empty list when
    the object has no such attribute). *)
Record response_entry : Type := {
  type : string;
  dn : string;
  raw_KeyCredentialLink : list bytes
}.

(** A call [ldap_session.modify(dn, {attribute: [ldap3.MODIFY_REPLACE, values]})]. *)
Record modify_request : Type := {
  mod_dn : string;
  mod_attribute : string;
  mod_values : list bytes
}.

(** The directory service, as seen through the session: what each search
    returns and how each modification is answered, given the modifications
    sent so far. *)
Class Server : Type := {
  search_sAMAccountName : list modify_request -> string -> list ldap_entry;
  search_objectSid : list modify_request -> string -> list ldap_entry;
  search_base : list modify_request -> option string -> list response_entry;
  modify_answer : list modify_request -> modify_request -> Z * string
}.

(** [impacket.ldaptypes]: access control entries and security descriptors
    over the library's SIDs. *)
Record ACE (LDAP_SID : Type) : Type := {
  AceType : Z;
  AceFlags : Z;
  Mask : Z;
  Sid : LDAP_SID
}.
Arguments AceType {LDAP_SID} a.
Arguments AceFlags {LDAP_SID} a.
Arguments Mask {LDAP_SID} a.
Arguments Sid {LDAP_SID} a.

Record SR_SECURITY_DESCRIPTOR_obj (LDAP_SID : Type) : Type := {
  Revision : Z;
  Control : Z;
  OwnerSid : option LDAP_SID;
  GroupSid : option LDAP_SID;
  Sacl : bytes;
  Dacl_aces : list (ACE LDAP_SID)
}.
Arguments Revision {LDAP_SID} s.
Arguments Control {LDAP_SID} s.
Arguments OwnerSid {LDAP_SID} s.
Arguments GroupSid {LDAP_SID} s.
Arguments Sacl {LDAP_SID} s.
Arguments Dacl_aces {LDAP_SID} s.

(** The library's SIDs with their canonical form, its parser
    [SR_SECURITY_DESCRIPTOR(data=...)] and its encoder [getData]. *)
Class ldaptypes : Type := {
  LDAP_SID : Type;
  formatCanonical : LDAP_SID -> string;
  SR_SECURITY_DESCRIPTOR : bytes -> result (SR_SECURITY_DESCRIPTOR_obj LDAP_SID);
  getData : SR_SECURITY_DESCRIPTOR_obj LDAP_SID -> bytes
}.

(** The module-level names the class calls without defining them in the
    class.  A name that the module does not bind raises [NameError] when
    it is evaluated. *)
Record Globals {lt : ldaptypes} : Type := {
  create_allow_ace : option (string -> ACE LDAP_SID);
  create_empty_sd : option (SR_SECURITY_DESCRIPTOR_obj LDAP_SID)
}.

(** [pywhisker.py] neither defines nor imports [create_allow_ace] and
    [create_empty_sd]. *)
Definition pywhisker_globals {lt : ldaptypes} : Globals :=
  {| create_allow_ace := None; create_empty_sd := None |}.

Section ShadowCredentials.

Context {clock : Clock} {lt : ldaptypes} {server : Server}.
Variable globals : Globals.

Definition set_aces (sd : SR_SECURITY_DESCRIPTOR_obj LDAP_SID) (aces : list (ACE LDAP_SID))
  : SR_SECURITY_DESCRIPTOR_obj LDAP_SID :=
  {| Revision := Revision sd;
     Control := Control sd;
     OwnerSid := OwnerSid sd;
     GroupSid := GroupSid sd;
     Sacl := Sacl sd;
     Dacl_aces := aces |}.

(** The object and what it has done so far: the attributes of [self], the
    requests sent through [ldap_session.modify] (oldest first), the
    [logging] records and the lines printed. *)
Record State : Type := {
  delegate_from : option string;
  delegate_to : string;
  SID_delegate_from : option string;
  DN_delegate_to : option string;
  modifications : list modify_request;
  logs : list (level * string);
  stdout : list string
}.

(** [ShadowCredentials.__init__(ldap_server, ldap_session, delegate_to)]. *)
Definition init (delegate_to : string) : State :=
  {| delegate_from := None;
     delegate_to := delegate_to;
     SID_delegate_from := None;
     DN_delegate_to := None;
     modifications := [];
     logs := [];
     stdout := [] |}.

(** Statements: a state transformer that returns a value or raises. *)
Definition Prog (A : Type) : Type := State -> result A * State.

Definition ret {A} (a : A) : Prog A := fun st => (Ok a, st).

Definition raise {A} (e : exn) : Prog A := fun st => (Raise e, st).

Definition lift {A} (r : result A) : Prog A := fun st => (r, st).

Definition get {A} (f : State -> A) : Prog A := fun st => (Ok (f st), st).

Definition seq {A B} (c : Prog A) (k : A -> Prog B) : Prog B :=
  fun st =>
    match c st with
    | (Ok a, st') => k a st'
    | (Raise e, st') => (Raise e, st')
    end.

(** [try: body except IndexError: handler]. *)
Definition except_IndexError {A} (body : Prog A) (handler : Prog A) : Prog A :=
  fun st =>
    match body st with
    | (Raise IndexError, st') => handler st'
    | r => r
    end.

Local Notation "x <- c1 ;; c2" := (seq c1 (fun x => c2))
  (at level 61, c1 at next level, right associativity).
Local Notation "c1 ;;; c2" := (seq c1 (fun _ => c2))
  (at level 61, right associativity).

Definition log (l : level) (msg : string) : Prog unit :=
  fun st =>
    (Ok tt,
     {| delegate_from := delegate_from st;
        delegate_to := delegate_to st;
        SID_delegate_from := SID_delegate_from st;
        DN_delegate_to := DN_delegate_to st;
        modifications := modifications st;
        logs := (logs st ++ [(l, msg)])%list;
        stdout := stdout st |}).

Definition print (lines : list string) : Prog unit :=
  fun st =>
    (Ok tt,
     {| delegate_from := delegate_from st;
        delegate_to := delegate_to st;
        SID_delegate_from := SID_delegate_from st;
        DN_delegate_to := DN_delegate_to st;
        modifications := modifications st;
        logs := logs st;
        stdout := (stdout st ++ lines)%list |}).

Definition set_delegate_from (v : string) : Prog unit :=
  fun st =>
    (Ok tt,
     {| delegate_from := Some v;
        delegate_to := delegate_to st;
        SID_delegate_from := SID_delegate_from st;
        DN_delegate_to := DN_delegate_to st;
        modifications := modifications st;
        logs := logs st;
        stdout := stdout st |}).

Definition set_SID_delegate_from (v : string) : Prog unit :=
  fun st =>
    (Ok tt,
     {| delegate_from := delegate_from st;
        delegate_to := delegate_to st;
        SID_delegate_from := Some v;
        DN_delegate_to := DN_delegate_to st;
        modifications := modifications st;
        logs := logs st;
        stdout := stdout st |}).

Definition set_DN_delegate_to (v : string) : Prog unit :=
  fun st =>
    (Ok tt,
     {| delegate_from := delegate_from st;
        delegate_to := delegate_to st;
        SID_delegate_from := SID_delegate_from st;
        DN_delegate_to := Some v;
        modifications := modifications st;
        logs := logs st;
        stdout := stdout st |}).

(** [ldap_session.search] with the three filters the class uses; the
    class reads [ldap_session.entries] or [ldap_session.response] right
    after the call. *)
Definition ldap_search_sAMAccountName (samname : string) : Prog (list ldap_entry) :=
  fun st => (Ok (search_sAMAccountName (modifications st) samname), st).

Definition ldap_search_objectSid (sid : string) : Prog (list ldap_entry) :=
  fun st => (Ok (search_objectSid (modifications st) sid), st).

Definition ldap_search_base (base : option string) : Prog (list response_entry) :=
  fun st => (Ok (search_base (modifications st) base), st).

(** [ldap_session.modify(dn, {'msDS-AllowedToActOnBehalfOfOtherIdentity':
    [ldap3.MODIFY_REPLACE, values]})]: the request is sent, and
    [ldap_session.result] is the server's answer. *)
Definition ldap_modify (target : string) (values : list bytes) : Prog (Z * string) :=
  fun st =>
    let req := {| mod_dn := target;
                  mod_attribute := "msDS-AllowedToActOnBehalfOfOtherIdentity";
                  mod_values := values |} in
    (Ok (modify_answer (modifications st) req),
     {| delegate_from := delegate_from st;
        delegate_to := delegate_to st;
        SID_delegate_from := SID_delegate_from st;
        DN_delegate_to := DN_delegate_to st;
        modifications := (modifications st ++ [req])%list;
        logs := logs st;
        stdout := stdout st |}).

(** ** The methods of [ShadowCredentials] *)

(** [get_user_info(samname)]: [(dn, sid)], or [False] (here [None]). *)
Definition get_user_info (samname : string) : Prog (option (string * string)) :=
  entries <- ldap_search_sAMAccountName samname ;;
  except_IndexError
    (e <- lift (index entries 0) ;;
     ret (Some (entry_dn e, objectSid e)))
    (log ERROR ("User not found in LDAP: " ++ samname) ;;;
     ret None).

(** [get_sid_info(sid)]: [(dn, samname)], or [False] (here [None]). *)
Definition get_sid_info (sid : string) : Prog (option (string * string)) :=
  entries <- ldap_search_objectSid sid ;;
  except_IndexError
    (e <- lift (index entries 0) ;;
     ret (Some (entry_dn e, samaccountname e)))
    (log ERROR ("SID not found in LDAP: " ++ sid) ;;;
     ret None).

(** [x[1]] where [x] is what [get_sid_info] returned: subscripting [False]
    raises [TypeError]. *)
Definition subscript_1 (x : option (string * string)) : result string :=
  match x with
  | Some (_, b) => Ok b
  | None => Raise TypeError
  end.

(** [for ace in sd['Dacl'].aces:] of [get_keycredentiallink]. *)
Fixpoint list_aces (aces : list (ACE LDAP_SID)) : Prog unit :=
  match aces with
  | [] => ret tt
  | ace :: rest =>
      let SID := formatCanonical (Sid ace) in
      info <- get_sid_info (formatCanonical (Sid ace)) ;;
      SamAccountName <- lift (subscript_1 info) ;;
      log INFO ("    " ++ ljust 10 " " SamAccountName ++ "   (" ++ SID ++ ")") ;;;
      list_aces rest
  end.

(** [for entry in self.ldap_session.response:] keeps the last entry of
    type [searchResEntry]. *)
Definition last_searchResEntry (response : list response_entry) : option response_entry :=
  fold_left
    (fun targetuser entry =>
       if String.eqb (type entry) "searchResEntry" then Some entry else targetuser)
    response None.

(** Evaluating a module-level name. *)
Definition global {A} (name : string) (binding : option A) : Prog A :=
  match binding with
  | Some v => ret v
  | None => raise (NameError name)
  end.

(** [get_keycredentiallink()]: [(sd, targetuser)], or [None] when the
    target could not be queried. *)
Definition get_keycredentiallink
  : Prog (option (SR_SECURITY_DESCRIPTOR_obj LDAP_SID * response_entry)) :=
  base <- get DN_delegate_to ;;
  response <- ldap_search_base base ;;
  match last_searchResEntry response with
  | None =>
      log ERROR "Could not query target user properties" ;;;
      ret None
  | Some targetuser =>
      sd <- except_IndexError
              (raw <- lift (index (raw_KeyCredentialLink targetuser) 0) ;;
               let '(printed, attr) :=
                 DN_binary_KeyCredentialLink raw in
               print printed ;;;
               _ <- lift attr ;;
               raw <- lift (index (raw_KeyCredentialLink targetuser) 0) ;;
               sd <- lift (SR_SECURITY_DESCRIPTOR raw) ;;
               match Dacl_aces sd with
               | [] => log INFO "Attribute msDS-KeyCredentialLink is empty"
               | aces =>
                   log INFO "Accounts allowed to act on behalf of other identity:" ;;;
                   list_aces aces
               end ;;;
               ret sd)
              (log INFO "Attribute msDS-KeyCredentialLink is empty" ;;;
               global "create_empty_sd" (create_empty_sd globals)) ;;
      ret (Some (sd, targetuser))
  end.

(** [sd, targetuser = self.get_keycredentiallink()]: unpacking [None]
    raises [TypeError]. *)
Definition unpack_pair {A B} (x : option (A * B)) : Prog (A * B) :=
  match x with
  | Some p => ret p
  | None => raise TypeError
  end.

(** What each action logs for [ldap_session.result]. *)
Definition report_result (answer : Z * string) (success : list string) : Prog unit :=
  let '(code, message) := answer in
  if code =? 0 then
    fold_right (fun msg rest => log INFO msg ;;; rest) (ret tt) success
  else if code =? 50 then
    log ERROR ("Could not modify object, the server reports insufficient rights: " ++ message)
  else if code =? 19 then
    log ERROR ("Could not modify object, the server reports a constrained violation: " ++ message)
  else
    log ERROR ("The server returned an error: " ++ message).

Definition computer_missing : string :=
  "Computer to modify does not exist! (wrong domain?)".

(** [read()]. *)
Definition read_action : Prog unit :=
  target <- get delegate_to ;;
  result <- get_user_info target ;;
  match result with
  | None => log ERROR computer_missing
  | Some (target_dn, _) =>
      set_DN_delegate_to target_dn ;;;
      get_keycredentiallink ;;;
      ret tt
  end.

Definition canonical_sids (sd : SR_SECURITY_DESCRIPTOR_obj LDAP_SID) : list string :=
  map (fun ace => formatCanonical (Sid ace)) (Dacl_aces sd).

(** [write(delegate_from)]. *)
Definition write (delegate_from : string) : Prog unit :=
  set_delegate_from delegate_from ;;;
  result <- get_user_info delegate_from ;;
  match result with
  | None => log ERROR "User to escalate does not exist!"
  | Some (_, sid) =>
      set_SID_delegate_from sid ;;;
      target <- get delegate_to ;;
      result <- get_user_info target ;;
      match result with
      | None => log ERROR computer_missing
      | Some (target_dn, _) =>
          set_DN_delegate_to target_dn ;;;
          fetched <- get_keycredentiallink ;;
          p <- unpack_pair fetched ;;
          let '(sd, targetuser) := p in
          (if existsb (String.eqb sid) (canonical_sids sd) then
             log INFO (delegate_from ++ " can already impersonate users on " ++ target
                       ++ " via S4U2Proxy") ;;;
             log INFO "Not modifying the delegation rights."
           else
             allow <- global "create_allow_ace" (create_allow_ace globals) ;;
             let sd := set_aces sd (Dacl_aces sd ++ [allow sid])%list in
             answer <- ldap_modify (dn targetuser) [getData sd] ;;
             report_result answer
               ["Delegation rights modified successfully!";
                delegate_from ++ " can now impersonate users on " ++ target
                ++ " via S4U2Proxy"]) ;;;
          get_keycredentiallink ;;;
          ret tt
      end
  end.

(** [remove(delegate_from)]. *)
Definition remove (delegate_from : string) : Prog unit :=
  set_delegate_from delegate_from ;;;
  result <- get_user_info delegate_from ;;
  match result with
  | None => log ERROR "User to escalate does not exist!"
  | Some (_, sid) =>
      set_SID_delegate_from sid ;;;
      target <- get delegate_to ;;
      result <- get_user_info target ;;
      match result with
      | None => log ERROR computer_missing
      | Some (target_dn, _) =>
          set_DN_delegate_to target_dn ;;;
          fetched <- get_keycredentiallink ;;
          p <- unpack_pair fetched ;;
          let '(sd, targetuser) := p in
          let sd :=
            set_aces sd
              (filter (fun ace => negb (String.eqb sid (formatCanonical (Sid ace))))
                 (Dacl_aces sd)) in
          answer <- ldap_modify (dn targetuser) [getData sd] ;;
          report_result answer ["Delegation rights modified successfully!"] ;;;
          get_keycredentiallink ;;;
          ret tt
      end
  end.

(** [flush()]. *)
Definition flush : Prog unit :=
  target <- get delegate_to ;;
  result <- get_user_info target ;;
  match result with
  | None => log ERROR computer_missing
  | Some (target_dn, _) =>
      set_DN_delegate_to target_dn ;;;
      fetched <- get_keycredentiallink ;;
      p <- unpack_pair fetched ;;
      let '(sd, targetuser) := p in
      answer <- ldap_modify (dn targetuser) [] ;;
      report_result answer ["Delegation rights flushed successfully!"] ;;;
      get_keycredentiallink ;;;
      ret tt
  end.

End ShadowCredentials.

(** ** What a statement may depend on, and what it may change *)

Section Views.

Context {clock : Clock} {lt : ldaptypes} {server : Server}.

(** Two states agree on what the directory has been sent and on the target
    of the object. *)
Definition same_view (st1 st2 : State) : Prop :=
  modifications st1 = modifications st2
  /\ DN_delegate_to st1 = DN_delegate_to st2
  /\ delegate_to st1 = delegate_to st2.

(** A statement that only looks: its outcome depends on the view alone, it
    leaves the view as it is, and it only adds to the log. *)
Definition readonly {A} (c : Prog A) : Prop :=
  forall st1 st2,
    same_view st1 st2 ->
    fst (c st1) = fst (c st2)
    /\ same_view (snd (c st1)) st1
    /\ exists l, logs (snd (c st1)) = (logs st1 ++ l)%list.

(** The state once [self.DN_delegate_to] is assigned. *)
Definition with_DN_delegate_to (target_dn : string) (st : State) : State :=
  snd (set_DN_delegate_to target_dn st).

(** The state with more records in the log. *)
Definition add_logs (l : list (level * string)) (st : State) : State :=
  {| delegate_from := delegate_from st;
     delegate_to := delegate_to st;
     SID_delegate_from := SID_delegate_from st;
     DN_delegate_to := DN_delegate_to st;
     modifications := modifications st;
     logs := (logs st ++ l)%list;
     stdout := stdout st |}.

(** What [get_sid_info] finds for a SID, given the modifications sent. *)
Definition resolved_name (mods : list modify_request) (sid : string) : option string :=
  match search_objectSid mods sid with
  | e :: _ => Some (samaccountname e)
  | [] => None
  end.

(** The line of the listing for one ACE. *)
Definition listing_line (mods : list modify_request) (ace : ACE LDAP_SID) : level * string :=
  let SID := formatCanonical (Sid ace) in
  (INFO,
   "    " ++ ljust 10 " " (match resolved_name mods SID with Some n => n | None => "" end)
   ++ "   (" ++ SID ++ ")").

(** The request sent by [ldap_modify]. *)
Definition replace_request (target : string) (values : list bytes) : modify_request :=
  {| mod_dn := target;
     mod_attribute := "msDS-AllowedToActOnBehalfOfOtherIdentity";
     mod_values := values |}.

End Views.

(** ** A test bench for concrete runs *)

(** A clock that keeps the tick count as the date and never raises, where
    the interpreter raises [OverflowError] past year 9999: the runs below
    reach it at tick 0 or not at all. *)
Definition ticks_clock : Clock :=
  {| datetime := Z; datetime_1601_plus := fun ticks => Ok ticks |}.

Definition sid_attacker : string := "S-1-5-21-1004336348-1177238915-682003330-1104".
Definition sid_svc : string := "S-1-5-21-1004336348-1177238915-682003330-1105".
Definition dn_attacker : string := "CN=attacker,CN=Computers,DC=corp,DC=local".
Definition dn_svc : string := "CN=svc,CN=Users,DC=corp,DC=local".
Definition dn_ws01 : string := "CN=ws01,CN=Computers,DC=corp,DC=local".

(** Two values of the attribute, both accepted by
    [DN_binary_KeyCredentialLink]: a blob with a version and no record. *)
Definition value_no_ace : bytes :=
  list_byte_of_string "B:8:00020000:CN=ws01,CN=Computers,DC=corp,DC=local".
Definition value_svc : bytes :=
  list_byte_of_string "B:8:00010000:CN=ws01,CN=Computers,DC=corp,DC=local".

(** A value whose blob holds one KeyMaterial record announcing five bytes
    and carrying two, and a value whose blob holds one KeyCreationTime
    record and no KeySource record. *)
Definition value_short_record : bytes :=
  list_byte_of_string "B:18:00020000050003AABB:CN=ws01,CN=Computers,DC=corp,DC=local".
Definition value_timestamp_first : bytes :=
  list_byte_of_string
    "B:30:000200000800090000000000000000:CN=ws01,CN=Computers,DC=corp,DC=local".

Definition value_source_first : bytes :=
  list_byte_of_string
    "B:38:00020000010005000800090000000000000000:CN=ws01,CN=Computers,DC=corp,DC=local".

Definition bench_sd (aces : list (ACE string)) : SR_SECURITY_DESCRIPTOR_obj string :=
  {| Revision := 1;
     Control := 32772;
     OwnerSid := Some "S-1-5-32-544";
     GroupSid := None;
     Sacl := [];
     Dacl_aces := aces |}.

Definition ace_svc : ACE string :=
  {| AceType := 0; AceFlags := 0; Mask := 983551; Sid := sid_svc |}.

Definition bytes_eqb (a b : bytes) : bool :=
  String.eqb (string_of_list_byte a) (string_of_list_byte b).

(** A stand-in for the library's codec: SIDs are kept in canonical form, and
    the codec is a table over the two values above, read as a descriptor
    without ACE and as a descriptor with one ACE for [sid_svc].  The library
    itself does not parse these two values; the runs that depend on what the
    library accepts are made on [impacket_ldaptypes] below. *)
Definition bench_ldaptypes : ldaptypes :=
  {| LDAP_SID := string;
     formatCanonical := fun sid => sid;
     SR_SECURITY_DESCRIPTOR := fun data =>
       if bytes_eqb data value_svc then Ok (bench_sd [ace_svc])
       else if bytes_eqb data value_no_ace then Ok (bench_sd [])
       else Raise struct_error;
     getData := fun sd =>
       match Dacl_aces sd with
       | [] => value_no_ace
       | _ => value_svc
       end |}.

(** A directory with the accounts [attacker$], [svc$] and [ws01$]; the
    target [ws01$] carries [attribute] as its msDS-KeyCredentialLink values,
    and [sid_svc] resolves to a name when [resolves] is set.  Every
    modification is accepted. *)
Definition bench_server (attribute : list bytes) (resolves : bool) : Server :=
  {| search_sAMAccountName := fun _ samname =>
       if String.eqb samname "attacker$" then
         [{| entry_dn := dn_attacker; objectSid := sid_attacker; samaccountname := "attacker$" |}]
       else if String.eqb samname "svc$" then
         [{| entry_dn := dn_svc; objectSid := sid_svc; samaccountname := "svc$" |}]
       else if String.eqb samname "ws01$" then
         [{| entry_dn := dn_ws01; objectSid := "S-1-5-21-1004336348-1177238915-682003330-1103";
             samaccountname := "ws01$" |}]
       else [];
     search_objectSid := fun _ sid =>
       if resolves && String.eqb sid sid_svc then
         [{| entry_dn := dn_svc; objectSid := sid_svc; samaccountname := "svc$" |}]
       else [];
     search_base := fun _ base =>
       match base with
       | Some b =>
           if String.eqb b dn_ws01 then
             [{| type := "searchResEntry"; dn := dn_ws01; raw_KeyCredentialLink := attribute |}]
           else []
       | None => []
       end;
     modify_answer := fun _ _ => (0, "") |}.

(** ** Executable predicates on the decoder's input *)

(** A timestamp record (tag 8 or 9) is met before any KeySource record
    (tag 5). *)
Fixpoint timestamp_before_source (data : list Row) : bool :=
  match data with
  | [] => false
  | row :: rest =>
      if (entryType row =? KeyCredentialEntryType.KeyApproximateLastLogonTimeStamp)
         || (entryType row =? KeyCredentialEntryType.KeyCreationTime)
      then true
      else if entryType row =? KeyCredentialEntryType.KeySource then false
      else timestamp_before_source rest
  end.

(** The hex field of the attribute's value, decoded: [binary_data]. *)
Definition binary_data_of (raw_data : bytes) : result bytes :=
  text <- decode_utf8 raw_data ;;
  field <- index (split_colon text) 2 ;;
  unhexlify_str field.

(** A record on the wire: the length of the value on 16 bits, little-endian,
    the tag, the value. *)
Definition record_bytes (r : byte * bytes) : bytes :=
  let n := Z.of_nat (List.length (snd r)) in
  (byte_of_Z (n mod 256) :: byte_of_Z (n / 256) :: fst r :: snd r)%list.

Definition row_of (r : byte * bytes) : Row :=
  {| entryType := byte_val (fst r); value := snd r |}.

Definition legacy_version (version : Z) : bool :=
  (version =? KeyCredentialVersion.Version0) || (version =? KeyCredentialVersion.Version1).

(** ** Further executable predicates on the decoder's input *)

(** The records the constructor interprets: every tag from 1 to 9 but the
    hash (tag 2). *)
Definition interpreted (row : Row) : bool :=
  (1 <=? entryType row) && (entryType row <=? 9)
  && negb (entryType row =? KeyCredentialEntryType.KeyHash).

(** The value [self.source] holds after the records [data], starting from
    [src]: the first byte of the last KeySource record. *)
Fixpoint last_source (src : option Z) (data : list Row) : option Z :=
  match data with
  | [] => src
  | row :: rest =>
      if entryType row =? KeyCredentialEntryType.KeySource then
        match value row with
        | b :: _ => last_source (Some (byte_val b)) rest
        | [] => last_source src rest
        end
      else last_source src rest
  end.

(** The bytes of a record on the wire: the length announced on two bytes,
    the tag, and the value. *)
Definition wire_bytes (announced : Z) (r : Row) : bytes :=
  (byte_of_Z (announced mod 256) :: byte_of_Z (announced / 256)
   :: byte_of_Z (entryType r) :: value r)%list.

(** [base64.b64encode(s)]: three bytes give four characters of the
    alphabet, and a last group of one or two bytes is padded with [=]. *)
Definition b64_char (v : Z) : byte :=
  byte_of_Z (if v <? 26 then v + 65
             else if v <? 52 then v + 71
             else if v <? 62 then v - 4
             else if v =? 62 then 43
             else 47).

Fixpoint b64encode (s : bytes) : bytes :=
  match s with
  | [] => []
  | [a] =>
      [b64_char (byte_val a / 4); b64_char (byte_val a mod 4 * 16); x3d; x3d]
  | [a; b] =>
      [b64_char (byte_val a / 4);
       b64_char (byte_val a mod 4 * 16 + byte_val b / 16);
       b64_char (byte_val b mod 16 * 4);
       x3d]
  | a :: b :: c :: rest =>
      b64_char (byte_val a / 4)
      :: b64_char (byte_val a mod 4 * 16 + byte_val b / 16)
      :: b64_char (byte_val b mod 16 * 4 + byte_val c / 64)
      :: b64_char (byte_val c mod 64)
      :: b64encode rest
  end.


(** ** What a statement may send *)

Section Sending.

Context {clock : Clock} {lt : ldaptypes} {server : Server}.

(** A statement that sends at most [n] requests, each of them a replacement
    of msDS-AllowedToActOnBehalfOfOtherIdentity, and leaves what was sent
    before in place. *)
Definition sends {A} (n : nat) (c : Prog A) : Prop :=
  forall st, exists l,
    modifications (snd (c st)) = (modifications st ++ l)%list
    /\ (List.length l <= n)%nat
    /\ Forall (fun r => mod_attribute r = "msDS-AllowedToActOnBehalfOfOtherIdentity") l.

End Sending.


(** ** The command line and the LDAP session *)

(** The namespace returned by [parse_args()]. *)
Record Args : Type := {
  identity : string;
  args_delegate_to : string;
  args_delegate_from : option string;
  action : string;
  use_ldaps : bool;
  ts : bool;
  debug : bool;
  hashes : option string;
  no_pass : bool;
  k : bool;
  aesKey : option string;
  dc_ip : option string
}.

(** [args.k = True]. *)
Definition set_k (args : Args) : Args :=
  {| identity := identity args;
     args_delegate_to := args_delegate_to args;
     args_delegate_from := args_delegate_from args;
     action := action args;
     use_ldaps := use_ldaps args;
     ts := ts args;
     debug := debug args;
     hashes := hashes args;
     no_pass := no_pass args;
     k := true;
     aesKey := aesKey args;
     dc_ip := dc_ip args |}.

(** How a function of the command line ends: it returns, it raises, or it
    leaves through [sys.exit]. *)
Inductive ending (A : Type) : Type :=
| Returns (a : A)
| Raises (e : exn)
| Exits (code : Z).
Arguments Returns {A} a.
Arguments Raises {A} e.
Arguments Exits {A} code.

(** What [parse_identity] does: the [logging] records with the name of their
    level, the prompts shown by [getpass], and how it ends.  When it returns,
    it gives [args] as it has left it and the tuple
    [(domain, username, password, lmhash, nthash)]. *)
Record identity_run : Type := {
  identity_logs : list (string * string);
  identity_prompts : list string;
  identity_ending : ending (Args * (string * string * string * string * string))
}.

Definition is_None {A} (x : option A) : bool :=
  match x with
  | None => true
  | Some _ => false
  end.

Section CommandLine.

(** [impacket.examples.utils.parse_credentials] and what the operator types
    at the [getpass] prompt. *)
Variable parse_credentials : string -> string * string * string.
Variable getpass : string -> string.

(** [parse_identity(args)]. *)
Definition parse_identity (args : Args) : identity_run :=
  let '(domain, username, password) := parse_credentials (identity args) in
  if String.eqb domain "" then
    {| identity_logs := [("CRITICAL", "Domain should be specified!")];
       identity_prompts := [];
       identity_ending := Exits 1 |}
  else
    let ask :=
      String.eqb password "" && negb (String.eqb username "")
      && is_None (hashes args) && negb (no_pass args) && is_None (aesKey args) in
    let password := if ask then getpass "Password:" else password in
    let args := if is_None (aesKey args) then args else set_k args in
    {| identity_logs :=
         if ask then [("INFO", "No credentials supplied, supply password")] else [];
       identity_prompts := if ask then ["Password:"] else [];
       identity_ending :=
         match hashes args with
         | Some h =>
             match split_colon h with
             | [lmhash; nthash] => Returns (args, (domain, username, password, lmhash, nthash))
             | _ => Raises ValueError
             end
         | None => Returns (args, (domain, username, password, "", ""))
         end |}.

End CommandLine.

(** The arguments given to [ldap3.Server], [ldap3.Tls] and
    [ldap3.Connection]. *)
Inductive tls_protocol : Type := PROTOCOL_TLSv1 | PROTOCOL_TLSv1_2.

Inductive authentication : Type :=
| Kerberos (username password domain lmhash nthash : string)
    (aesKey kdcHost : option string)
| NTLM (user password : string).

Record connection_request : Type := {
  conn_target : string;
  conn_port : Z;
  conn_use_ssl : bool;
  conn_tls : option tls_protocol;
  conn_authentication : authentication
}.

(** What an [SMBConnection] answers: whether the anonymous [login] and the
    [logoff] go through (they raise an [Exception] otherwise), and the name
    [getServerName()] gives. *)
Record SMB : Type := {
  login : bool;
  logoff : bool;
  getServerName : string
}.

(** The exceptions of this part of the script: the one [init_ldap_session]
    catches, the one [get_machine_name] raises itself, and any other. *)
Inductive connection_exn : Type :=
| LDAPSocketOpenError
| Exception (message : string)
| OtherException.

(** The network: the SMB connection to a host ([None] when the constructor
    raises), and whether opening and binding an LDAP connection raises. *)
Class Network : Type := {
  SMBConnection : string -> option SMB;
  connect : connection_request -> option connection_exn
}.

Section Session.

Context {network : Network}.

(** [get_machine_name(args, domain)]. *)
Definition get_machine_name (args : Args) (domain : string) : string + connection_exn :=
  let host :=
    match dc_ip args with
    | Some ip => ip
    | None => domain
    end in
  match SMBConnection host with
  | None => inr OtherException
  | Some s =>
      if login s then
        if logoff s then inl (getServerName s) else inr OtherException
      else if String.eqb (getServerName s) "" then
        inr (Exception ("Error while anonymous logging into " ++ domain))
      else inl (getServerName s)
  end.

(** [init_ldap_connection(target, tls_version, args, domain, username,
    password, lmhash, nthash)]: the connection it asks for. *)
Definition connection_request_of (target : string) (tls_version : option tls_protocol)
    (args : Args) (domain username password lmhash nthash : string) : connection_request :=
  let user := (domain ++ "\" ++ username)%string in
  let '(use_ssl, port) :=
    match tls_version with
    | Some _ => (true, 636)
    | None => (false, 389)
    end in
  {| conn_target := target;
     conn_port := port;
     conn_use_ssl := use_ssl;
     conn_tls := tls_version;
     conn_authentication :=
       if k args then
         Kerberos username password domain lmhash nthash (aesKey args) (dc_ip args)
       else if is_None (hashes args) then NTLM user password
       else NTLM user (lmhash ++ ":" ++ nthash)%string |}.

(** The connections tried, oldest first, and the outcome: the connection
    that is open, or the exception that is raised. *)
Definition init_ldap_connection (target : string) (tls_version : option tls_protocol)
    (args : Args) (domain username password lmhash nthash : string)
  : list connection_request * (connection_request + connection_exn) :=
  let request :=
    connection_request_of target tls_version args domain username password lmhash nthash in
  match connect request with
  | None => ([request], inl request)
  | Some e => ([request], inr e)
  end.

(** [init_ldap_session(args, domain, username, password, lmhash, nthash)]. *)
Definition init_ldap_session (args : Args) (domain username password lmhash nthash : string)
  : list connection_request * (connection_request + connection_exn) :=
  let target :=
    if k args then get_machine_name args domain
    else match dc_ip args with
         | Some ip => inl ip
         | None => inl domain
         end in
  match target with
  | inr e => ([], inr e)
  | inl target =>
      if use_ldaps args then
        match init_ldap_connection target (Some PROTOCOL_TLSv1_2) args
                domain username password lmhash nthash with
        | (tried, inr LDAPSocketOpenError) =>
            let '(tried', r) :=
              init_ldap_connection target (Some PROTOCOL_TLSv1) args
                domain username password lmhash nthash in
            ((tried ++ tried')%list, r)
        | r => r
        end
      else
        init_ldap_connection target None args domain username password lmhash nthash
  end.

End Session.

(** The number of colons of a string. *)
Fixpoint colons (s : string) : nat :=
  match s with
  | EmptyString => 0
  | String c rest => if Ascii.eqb c ":" then S (colons rest) else colons rest
  end.

(** ** More of the test bench *)

(** A value with two fields only. *)
Definition value_two_fields : bytes := list_byte_of_string "B:8".

(** A response where a reference follows the entry of the target. *)
Definition bench_response : list response_entry :=
  [{| type := "searchResEntry"; dn := dn_svc; raw_KeyCredentialLink := [] |};
   {| type := "searchResEntry"; dn := dn_ws01; raw_KeyCredentialLink := [value_svc] |};
   {| type := "searchResRef"; dn := ""; raw_KeyCredentialLink := [] |}].

(** A command line with an AES key and hashes, a credential parser that
    finds the domain and the user in it, and an operator typing a password. *)
Definition bench_args : Args :=
  {| identity := "corp.local/alice";
     args_delegate_to := "ws01$";
     args_delegate_from := Some "attacker$";
     action := "write";
     use_ldaps := true;
     ts := false;
     debug := false;
     hashes := Some ":31d6cfe0d16ae931b73c59d7e0c089c0";
     no_pass := false;
     k := false;
     aesKey := Some "000102030405060708090a0b0c0d0e0f";
     dc_ip := None |}.

Definition bench_parse_credentials (identity : string) : string * string * string :=
  ("corp.local", "alice", "").

Definition bench_getpass (prompt : string) : string := "secret".

(** A network where the domain controller is dc01, turns the anonymous
    login down and refuses TLS 1.2. *)
Definition bench_network : Network :=
  {| SMBConnection := fun _ =>
       Some {| login := false; logoff := true; getServerName := "dc01" |};
     connect := fun request =>
       match conn_tls request with
       | Some PROTOCOL_TLSv1_2 => Some LDAPSocketOpenError
       | _ => None
       end |}.

(** ** The library's codec on plain descriptors *)

(** [impacket.ldap.ldaptypes] is not part of the script.  What follows is
    its parser and its encoder on the self-relative descriptors that the
    records [SR_SECURITY_DESCRIPTOR_obj] and [ACE] can hold: no SACL, a DACL
    of revision 4 whose entries are all of type ACCESS_ALLOWED_ACE, reserved
    bytes at zero, and SIDs with all their sub-authorities.  On those the
    parser returns what the library returns and [getData] gives the
    library's bytes.  On the other inputs the parser answers [struct.error],
    where the library may accept the input or raise another exception: every
    closed run below stays where the parser returns. *)

(** ["%d" % n]. *)
Definition decimal (n : Z) : string :=
  DecimalString.NilZero.string_of_int (Z.to_int n).

(** [struct.pack] of one unsigned little-endian integer on [width] bytes. *)
Fixpoint pack_le (width : nat) (n : Z) : bytes :=
  match width with
  | O => []
  | S width => byte_of_Z (n mod 256) :: pack_le width (n / 256)
  end.

(** [LDAP_SID]: the revision, the number of sub-authorities, the six bytes
    of the identifier authority and the sub-authorities, four bytes each. *)
Record LDAP_SID_obj : Type := {
  sid_Revision : Z;
  SubAuthorityCount : Z;
  IdentifierAuthority : bytes;
  SubAuthority : bytes
}.

(** [LDAP_SID(data=...)]. *)
Definition LDAP_SID_fromString (data : bytes) : result LDAP_SID_obj :=
  match data with
  | revision :: count :: rest =>
      let SubLen := (Z.to_nat (byte_val count) * 4)%nat in
      if Nat.leb (6 + SubLen) (List.length rest) then
        Ok {| sid_Revision := byte_val revision;
              SubAuthorityCount := byte_val count;
              IdentifierAuthority := firstn 6 rest;
              SubAuthority := firstn SubLen (skipn 6 rest) |}
      else Raise struct_error
  | _ => Raise struct_error
  end.

Definition LDAP_SID_getData (sid : LDAP_SID_obj) : bytes :=
  (byte_of_Z (sid_Revision sid) :: byte_of_Z (SubAuthorityCount sid)
   :: IdentifierAuthority sid ++ SubAuthority sid)%list.

(** [LDAP_SID.formatCanonical()]: [S-], the revision, the last byte of the
    identifier authority, and each sub-authority in decimal. *)
Fixpoint sub_authorities (count : nat) (data : bytes) : string :=
  match count with
  | O => ""
  | S count =>
      "-" ++ decimal (le_int (firstn 4 data)) ++ sub_authorities count (skipn 4 data)
  end.

Definition LDAP_SID_formatCanonical (sid : LDAP_SID_obj) : string :=
  "S-" ++ decimal (sid_Revision sid)
  ++ "-" ++ decimal (byte_val (nth 5 (IdentifierAuthority sid) x00))
  ++ sub_authorities (Z.to_nat (SubAuthorityCount sid)) (SubAuthority sid).

(** [ACE(data=...)] with its [AceSize]: the header, then the body of an
    ACCESS_ALLOWED_ACE, a mask and a SID, read from the [AceSize - 4] bytes
    after the header. *)
Definition ACE_fromString (data : bytes) : result (ACE LDAP_SID_obj * nat) :=
  match data with
  | aceType :: aceFlags :: s0 :: s1 :: rest =>
      let AceSize := Z.to_nat (le_int [s0; s1]) in
      if byte_val aceType =? 0 then
        match firstn (AceSize - 4) rest with
        | m0 :: m1 :: m2 :: m3 :: sid_data =>
            sid <- LDAP_SID_fromString sid_data ;;
            Ok ({| AceType := 0;
                   AceFlags := byte_val aceFlags;
                   Mask := le_int [m0; m1; m2; m3];
                   Sid := sid |}, AceSize)
        | _ => Raise struct_error
        end
      else Raise struct_error
  | _ => Raise struct_error
  end.

(** [ACE.getData()]: the size is computed again from the body. *)
Definition ACE_getData (ace : ACE LDAP_SID_obj) : bytes :=
  let body := (pack_le 4 (Mask ace) ++ LDAP_SID_getData (Sid ace))%list in
  (byte_of_Z (AceType ace) :: byte_of_Z (AceFlags ace)
   :: pack_le 2 (Z.of_nat (List.length body) + 4) ++ body)%list.

(** The loop of [ACL.fromString]: [AceCount] entries, each one starting
    [AceSize] bytes after the one before. *)
Fixpoint ACL_aces (count : nat) (data : bytes) : result (list (ACE LDAP_SID_obj)) :=
  match count with
  | O => Ok []
  | S count =>
      entry <- ACE_fromString data ;;
      rest <- ACL_aces count (skipn (snd entry) data) ;;
      Ok (fst entry :: rest)
  end.

(** [ACL(data=...)]: the size announced in the header is not looked at, and
    what follows the last entry is ignored. *)
Definition ACL_fromString (data : bytes) : result (list (ACE LDAP_SID_obj)) :=
  match data with
  | AclRevision :: Sbz1 :: _ :: _ :: c0 :: c1 :: z0 :: z1 :: rest =>
      if (byte_val AclRevision =? 4) && (byte_val Sbz1 =? 0) && (le_int [z0; z1] =? 0)
      then ACL_aces (Z.to_nat (le_int [c0; c1])) rest
      else Raise struct_error
  | _ => Raise struct_error
  end.

(** [ACL.getData()]: the size and the count are computed again. *)
Definition ACL_getData (aces : list (ACE LDAP_SID_obj)) : bytes :=
  let data := List.concat (map ACE_getData aces) in
  (x04 :: x00 :: pack_le 2 (Z.of_nat (List.length data) + 8)
   ++ pack_le 2 (Z.of_nat (List.length aces)) ++ x00 :: x00 :: data)%list.

(** The SID at an offset of the descriptor; no SID at offset zero. *)
Definition SID_at (offset : nat) (data : bytes) : result (option LDAP_SID_obj) :=
  match offset with
  | O => Ok None
  | _ => sid <- LDAP_SID_fromString (skipn offset data) ;; Ok (Some sid)
  end.

(** [SR_SECURITY_DESCRIPTOR(data=...)]: the header of twenty bytes, then
    the owner, the group and the DACL, each at its offset. *)
Definition SR_SECURITY_DESCRIPTOR_fromString (data : bytes)
  : result (SR_SECURITY_DESCRIPTOR_obj LDAP_SID_obj) :=
  if Nat.ltb (List.length data) 20 then Raise struct_error
  else
    let OffsetOwner := Z.to_nat (le_int (slice 4 8 data)) in
    let OffsetGroup := Z.to_nat (le_int (slice 8 12 data)) in
    let OffsetSacl := Z.to_nat (le_int (slice 12 16 data)) in
    let OffsetDacl := Z.to_nat (le_int (slice 16 20 data)) in
    owner <- SID_at OffsetOwner data ;;
    group <- SID_at OffsetGroup data ;;
    if negb (byte_val (nth 1 data x00) =? 0) || negb (Nat.eqb OffsetSacl 0)
       || Nat.eqb OffsetDacl 0
    then Raise struct_error
    else
      aces <- ACL_fromString (skipn OffsetDacl data) ;;
      Ok {| Revision := byte_val (nth 0 data x00);
            Control := le_int (slice 2 4 data);
            OwnerSid := owner;
            GroupSid := group;
            Sacl := [];
            Dacl_aces := aces |}.

(** [SR_SECURITY_DESCRIPTOR.getData()]: the header with the offsets computed
    again, then the SACL, the DACL, the owner and the group, in that order. *)
Definition SR_SECURITY_DESCRIPTOR_getData (sd : SR_SECURITY_DESCRIPTOR_obj LDAP_SID_obj)
  : bytes :=
  let headerlen := 20%nat in
  let dacl := ACL_getData (Dacl_aces sd) in
  let owner := match OwnerSid sd with Some sid => LDAP_SID_getData sid | None => [] end in
  let group := match GroupSid sd with Some sid => LDAP_SID_getData sid | None => [] end in
  let OffsetSacl := match Sacl sd with [] => O | _ => headerlen end in
  let OffsetDacl := (headerlen + List.length (Sacl sd))%nat in
  let OffsetOwner :=
    match owner with
    | [] => O
    | _ => (OffsetDacl + List.length dacl)%nat
    end in
  let OffsetGroup :=
    match group with
    | [] => O
    | _ => (OffsetDacl + List.length dacl + List.length owner)%nat
    end in
  (byte_of_Z (Revision sd) :: x00 :: pack_le 2 (Control sd)
   ++ pack_le 4 (Z.of_nat OffsetOwner) ++ pack_le 4 (Z.of_nat OffsetGroup)
   ++ pack_le 4 (Z.of_nat OffsetSacl) ++ pack_le 4 (Z.of_nat OffsetDacl)
   ++ Sacl sd ++ dacl ++ owner ++ group)%list.

Definition impacket_ldaptypes : ldaptypes :=
  {| LDAP_SID := LDAP_SID_obj;
     formatCanonical := LDAP_SID_formatCanonical;
     SR_SECURITY_DESCRIPTOR := SR_SECURITY_DESCRIPTOR_fromString;
     getData := SR_SECURITY_DESCRIPTOR_getData |}.

(** ** Values that both parsers accept *)

(** The accounts of a domain whose SIDs are made of seven-bit bytes, so that
    an attribute value holding them decodes as UTF-8. *)
Definition sid_plain_ws01 : string := "S-1-5-21-287454020-16909060-84281096-1103".
Definition sid_plain_attacker : string := "S-1-5-21-287454020-16909060-84281096-1104".
Definition sid_plain_svc : string := "S-1-5-21-287454020-16909060-84281096-1105".

(** An owner whose three sub-authorities spell [::00020000:x]: read as text,
    the descriptor splits at these colons into four fields, the third one the
    hexadecimal form of a blob of version 0x200 without record. *)
Definition owner_bytes : bytes :=
  [x01; x03; x00; x00; x00; x00; x00; x05;
   x3a; x3a; x30; x30; x30; x32; x30; x30; x30; x30; x3a; x78].

(** The SID of [svc$] on the wire. *)
Definition svc_bytes : bytes :=
  [x01; x05; x00; x00; x00; x00; x00; x05;
   x15; x00; x00; x00; x44; x33; x22; x11; x04; x03; x02; x01;
   x08; x07; x06; x05; x51; x04; x00; x00].

(** A descriptor with the control flag SE_DACL_PRESENT, an empty DACL at
    offset 20 and the owner at offset 28. *)
Definition descriptor_no_ace : bytes :=
  ([x01; x00; x04; x00;
    x1c; x00; x00; x00; x00; x00; x00; x00; x00; x00; x00; x00; x14; x00; x00; x00;
    x04; x00; x08; x00; x00; x00; x00; x00]
   ++ owner_bytes)%list.

(** The same descriptor with one ACCESS_ALLOWED_ACE for [svc$] in the DACL:
    36 bytes, no flag, the mask 0x000f017f; the owner is at offset 64. *)
Definition descriptor_svc : bytes :=
  ([x01; x00; x04; x00;
    x40; x00; x00; x00; x00; x00; x00; x00; x00; x00; x00; x00; x14; x00; x00; x00;
    x04; x00; x2c; x00; x01; x00; x00; x00;
    x00; x00; x24; x00; x7f; x01; x0f; x00]
   ++ svc_bytes ++ owner_bytes)%list.

(** What the library reads in them. *)
Definition owner_sid : LDAP_SID_obj :=
  {| sid_Revision := 1;
     SubAuthorityCount := 3;
     IdentifierAuthority := [x00; x00; x00; x00; x00; x05];
     SubAuthority := [x3a; x3a; x30; x30; x30; x32; x30; x30; x30; x30; x3a; x78] |}.

Definition plain_ace_svc : ACE LDAP_SID_obj :=
  {| AceType := 0;
     AceFlags := 0;
     Mask := 983423;
     Sid := {| sid_Revision := 1;
               SubAuthorityCount := 5;
               IdentifierAuthority := [x00; x00; x00; x00; x00; x05];
               SubAuthority := [x15; x00; x00; x00; x44; x33; x22; x11; x04; x03; x02; x01;
                                x08; x07; x06; x05; x51; x04; x00; x00] |} |}.

Definition plain_sd (aces : list (ACE LDAP_SID_obj)) : SR_SECURITY_DESCRIPTOR_obj LDAP_SID_obj :=
  {| Revision := 1;
     Control := 4;
     OwnerSid := Some owner_sid;
     GroupSid := None;
     Sacl := [];
     Dacl_aces := aces |}.

(** A directory with the accounts [attacker$], [svc$] and [ws01$] of that
    domain; the target [ws01$] carries [attribute] as its
    msDS-KeyCredentialLink values, and every modification is accepted. *)
Definition plain_server (attribute : list bytes) : Server :=
  {| search_sAMAccountName := fun _ samname =>
       if String.eqb samname "attacker$" then
         [{| entry_dn := dn_attacker; objectSid := sid_plain_attacker;
             samaccountname := "attacker$" |}]
       else if String.eqb samname "svc$" then
         [{| entry_dn := dn_svc; objectSid := sid_plain_svc; samaccountname := "svc$" |}]
       else if String.eqb samname "ws01$" then
         [{| entry_dn := dn_ws01; objectSid := sid_plain_ws01; samaccountname := "ws01$" |}]
       else [];
     search_objectSid := fun _ sid =>
       if String.eqb sid sid_plain_svc then
         [{| entry_dn := dn_svc; objectSid := sid_plain_svc; samaccountname := "svc$" |}]
       else [];
     search_base := fun _ base =>
       match base with
       | Some b =>
           if String.eqb b dn_ws01 then
             [{| type := "searchResEntry"; dn := dn_ws01; raw_KeyCredentialLink := attribute |}]
           else []
       | None => []
       end;
     modify_answer := fun _ _ => (0, "") |}.

(** ** Properties of the decoder *)

Local Open Scope list_scope.

Lemma byte_val_range (b : byte) : 0 <= byte_val b < 256.
Proof.
  unfold byte_val. pose proof (Byte.to_N_bounded b). lia.
Qed.

Lemma byte_val_of_Z (n : Z) : 0 <= n < 256 -> byte_val (byte_of_Z n) = n.
Proof.
  intros Hn. unfold byte_val, byte_of_Z.
  destruct (Byte.of_N (Z.to_N n)) as [b|] eqn:E.
  - apply Byte.to_of_N in E. rewrite E. lia.
  - apply Byte.of_N_None_iff in E. lia.
Qed.

Lemma byte_of_Z_val (b : byte) : byte_of_Z (byte_val b) = b.
Proof.
  unfold byte_of_Z, byte_val. rewrite N2Z.id, Byte.of_to_N. reflexivity.
Qed.

Lemma le_int_length16 (n : Z) :
  0 <= n < 65536 -> le_int [byte_of_Z (n mod 256); byte_of_Z (n / 256)] = n.
Proof.
  intros Hn. cbn [le_int].
  rewrite !byte_val_of_Z.
  - pose proof (Z.div_mod n 256). lia.
  - split; [apply Z.div_pos; lia | apply Z.div_lt_upper_bound; lia].
  - apply Z.mod_pos_bound. lia.
Qed.

(** The loop consumes one well-formed record and goes on with the rest. *)
Lemma read_entries_record (r : byte * bytes) (stream : bytes) :
  Z.of_nat (List.length (snd r)) < 65536 ->
  read_entries (record_bytes r ++ stream) =
  (rows <- read_entries stream ;; Ok (row_of r :: rows)).
Proof.
  intros Hlen. destruct r as [ty v]. unfold record_bytes. cbn [fst snd] in *.
  cbn [app]. simp read_entries. cbn zeta.
  rewrite le_int_length16 by lia. rewrite Nat2Z.id.
  rewrite skipn_app, skipn_all, Nat.sub_diag. cbn [skipn app].
  rewrite firstn_app, firstn_all, Nat.sub_diag. cbn [firstn]. rewrite app_nil_r.
  reflexivity.
Qed.

Lemma read_entries_records (records : list (byte * bytes)) (stream : bytes) :
  Forall (fun r => Z.of_nat (List.length (snd r)) < 65536) records ->
  read_entries (List.concat (map record_bytes records) ++ stream) =
  (rows <- read_entries stream ;; Ok (map row_of records ++ rows)%list).
Proof.
  induction 1 as [|r records Hr _ IH]; cbn [map List.concat app].
  - destruct (read_entries stream); reflexivity.
  - rewrite <- app_assoc, read_entries_record by assumption.
    rewrite IH. destruct (read_entries stream); reflexivity.
Qed.

(** A header that announces more bytes than the stream still holds: the value
    is what is left, and the loop ends without an error. *)
Lemma read_entries_short_value (b0 b1 b2 : byte) (v : bytes) :
  (List.length v <= Z.to_nat (le_int [b0; b1]))%nat ->
  read_entries (b0 :: b1 :: b2 :: v) = Ok [{| entryType := byte_val b2; value := v |}].
Proof.
  intros Hlen. simp read_entries. cbn zeta.
  rewrite skipn_all2, firstn_all2 by assumption.
  simp read_entries. reflexivity.
Qed.

(** C5 (as amended).  After any number of complete records the loop stops
    with the records read when no byte is left, and raises [struct.error]
    when one or two bytes are left where a header is expected.  When a
    header announces more value bytes than are left, no error is raised: the
    record is read with the bytes that remain as its value. *)
Theorem read_entries_end_of_stream (records : list (byte * bytes)) :
  Forall (fun r => Z.of_nat (List.length (snd r)) < 65536) records ->
  read_entries (List.concat (map record_bytes records)) = Ok (map row_of records)
  /\ (forall b0,
        read_entries (List.concat (map record_bytes records) ++ [b0]) = Raise struct_error)
  /\ (forall b0 b1,
        read_entries (List.concat (map record_bytes records) ++ [b0; b1]) = Raise struct_error)
  /\ (forall b0 b1 b2 v,
        (List.length v < Z.to_nat (le_int [b0; b1]))%nat ->
        read_entries (List.concat (map record_bytes records) ++ b0 :: b1 :: b2 :: v)
        = Ok (map row_of records ++ [{| entryType := byte_val b2; value := v |}])).
Proof.
  intros Hrec. repeat split.
  - rewrite <- (app_nil_r (List.concat _)), read_entries_records by assumption.
    simp read_entries. cbn. rewrite app_nil_r. reflexivity.
  - intros b0. rewrite read_entries_records by assumption.
    simp read_entries. reflexivity.
  - intros b0 b1. rewrite read_entries_records by assumption.
    simp read_entries. reflexivity.
  - intros b0 b1 b2 v Hv. rewrite read_entries_records by assumption.
    rewrite read_entries_short_value by lia. reflexivity.
Qed.

Lemma read_entries_end_of_stream_witness :
  read_entries [x01; x00; x03; xaa; x05; x00; x03; xaa; xbb]
  = Ok [{| entryType := 3; value := [xaa] |}; {| entryType := 3; value := [xaa; xbb] |}].
Proof.
  destruct (read_entries_end_of_stream [(x03, [xaa])]) as (_ & _ & _ & H).
  - repeat constructor.
  - apply (H x05 x00 x03 [xaa; xbb]). cbn. lia.
Defined.

(** C5, as stated, fails: a blob whose only record announces five bytes and
    carries two is decoded without error, the two bytes being the key
    material. *)
Lemma short_record_is_accepted :
  binary_data_of value_short_record = Ok [x00; x02; x00; x00; x05; x00; x03; xaa; xbb]
  /\ snd (@DN_binary_KeyCredentialLink ticks_clock value_short_record)
     = Ok {| structure_dn := dn_ws01;
             version := 512;
             parsed_data := [("version", VInt 512); ("KeyMaterial", VBytes [xaa; xbb])];
             source := None |}.
Proof.
  split; reflexivity.
Qed.

(** C6.  On the sixteen bytes of 00112233-4455-6677-8899-aabbccddeeff,
    [Guid] returns a first group of six digits: [hex] drops the leading
    zeros and [rjust(4,'0')] does not restore them. *)
Theorem Guid_drops_leading_zeros :
  Guid guid_bytes = Ok "112233-4455-6677-8899-aabbccddeeff"
  /\ Guid_canonical guid_bytes = Ok "00112233-4455-6677-8899-aabbccddeeff"
  /\ Guid guid_bytes <> Guid_canonical guid_bytes.
Proof.
  repeat split; try reflexivity. discriminate.
Qed.

(** C7.  As soon as one byte of the reserved field is present, that is for
    every input of seven bytes or more, the constructor raises [TypeError]:
    the fill argument given to [rjust] is a [str]. *)
Theorem CustomKeyInformation_reserved_raises (keyMaterial : bytes) (version : Z) :
  (7 <= List.length keyMaterial)%nat ->
  CustomKeyInformation keyMaterial version = Raise TypeError.
Proof.
  intros Hlen.
  do 7 (destruct keyMaterial as [|? keyMaterial]; [cbn in Hlen; lia|]).
  reflexivity.
Qed.

Lemma CustomKeyInformation_reserved_raises_witness :
  CustomKeyInformation [x01; x00; x00; x00; x01; x00; x00] 512 = Raise TypeError.
Proof.
  apply CustomKeyInformation_reserved_raises. cbn. lia.
Defined.

(** Below seven bytes, and from two bytes on, the constructor returns. *)
Lemma CustomKeyInformation_short_ok (keyMaterial : bytes) (version : Z) :
  (2 <= List.length keyMaterial <= 6)%nat ->
  exists c, CustomKeyInformation keyMaterial version = Ok c
            /\ Reserved c = None /\ EncodedExtendedCKI c = None.
Proof.
  intros Hlen.
  do 2 (destruct keyMaterial as [|? keyMaterial]; [cbn in Hlen; lia|]).
  do 4 (destruct keyMaterial as [|? keyMaterial]; [eexists; repeat split|]).
  destruct keyMaterial; [eexists; repeat split | cbn in Hlen; lia].
Qed.

(** [unhexlify] undoes [hexlify]: the legacy identifier is the plain binary
    value of its hexadecimal digits. *)
Lemma hex_value_digit (n : Z) :
  0 <= n < 16 -> hex_value (byte_of_ascii (hex_digit n)) = Some n.
Proof.
  intros Hn. rewrite <- (Z2Nat.id n) by lia.
  assert (Z.to_nat n < 16)%nat as Hk by lia.
  revert Hk. generalize (Z.to_nat n). intros k Hk.
  do 16 (destruct k as [|k]; [reflexivity|]). lia.
Qed.

Lemma unhexlify_hexlify (bs : bytes) :
  unhexlify (list_byte_of_string (hexlify bs)) = Ok bs.
Proof.
  induction bs as [|b bs IH]; [reflexivity|].
  change (list_byte_of_string (hexlify (b :: bs)))
    with (byte_of_ascii (hex_digit (byte_val b / 16))
          :: byte_of_ascii (hex_digit (byte_val b mod 16))
          :: list_byte_of_string (hexlify bs)).
  pose proof (byte_val_range b) as Hb.
  cbn [unhexlify].
  rewrite !hex_value_digit, IH.
  - rewrite <- Z.div_mod by lia. rewrite byte_of_Z_val. reflexivity.
  - apply Z.mod_pos_bound. lia.
  - split; [apply Z.div_pos; lia | apply Z.div_lt_upper_bound; lia].
Qed.

(** The only exception [base64.b64decode] raises is [binascii.Error]. *)
Lemma a2b_base64_raises (s : bytes) quad_pos leftchar pads out e :
  a2b_base64 s quad_pos leftchar pads out = Raise e -> e = binascii_Error.
Proof.
  revert quad_pos leftchar pads out.
  induction s as [|ch s IH]; intros quad_pos leftchar pads out; cbn [a2b_base64].
  - destruct quad_pos; congruence.
  - repeat match goal with
           | |- context [if ?c then _ else _] => destruct c
           | |- context [match b64_value ?c with _ => _ end] => destruct (b64_value c)
           | |- context [match ?q with O => _ | S _ => _ end] => destruct q
           end; try congruence; apply IH.
Qed.

Lemma unhexlify_raises (s : bytes) e : unhexlify s = Raise e -> e = binascii_Error.
Proof.
  assert (forall n (s : bytes), (List.length s <= n)%nat ->
            unhexlify s = Raise e -> e = binascii_Error) as H.
  { induction n as [|n IH]; intros [|hi [|lo rest]] Hn; cbn [unhexlify];
      try congruence; cbn in Hn; try lia.
    destruct (hex_value hi), (hex_value lo); try congruence.
    destruct (unhexlify rest) eqn:E; [congruence|].
    intros [= <-]. apply (IH rest); [lia | assumption]. }
  apply (H (List.length s)). lia.
Qed.

(** Whatever the version, the identifier rule raises nothing but the
    decoding error of [binascii]. *)
Lemma ConvertToBinaryIdentifier_raises (keyIdentifier : bytes) (version : Z) e :
  ConvertToBinaryIdentifier keyIdentifier version = Raise e -> e = binascii_Error.
Proof.
  unfold ConvertToBinaryIdentifier.
  destruct (_ || _); [apply unhexlify_raises|].
  destruct (version =? _); apply a2b_base64_raises.
Qed.

(** C9.  The two legacy versions go through [binascii.unhexlify]; every
    other version, known or not, goes through [base64.b64decode].  No
    version is refused: the only exception that can come out is the decoding
    error of [binascii]. *)
Theorem ConvertToBinaryIdentifier_by_version (keyIdentifier : bytes) (version : Z) :
  ConvertToBinaryIdentifier keyIdentifier version =
  (if legacy_version version then unhexlify keyIdentifier else b64decode keyIdentifier)
  /\ match ConvertToBinaryIdentifier keyIdentifier version with
     | Ok _ => True
     | Raise e => e = binascii_Error
     end.
Proof.
  split.
  - unfold ConvertToBinaryIdentifier, legacy_version.
    destruct (_ || _); [reflexivity|].
    destruct (version =? _); reflexivity.
  - destruct (ConvertToBinaryIdentifier keyIdentifier version) eqn:E; [exact I|].
    eapply ConvertToBinaryIdentifier_raises. exact E.
Qed.

Section KeyCredentialLinkProperties.

Context {clock : Clock}.

(** Only a KeySource record sets [self.source]. *)
Lemma parse_row_keeps_source self row printed self' :
  entryType row <> KeyCredentialEntryType.KeySource ->
  parse_row self row = (printed, Ok self') ->
  source self' = source self.
Proof.
  intros Hty. unfold parse_row, timestamp_row, pure_row.
  repeat match goal with
         | |- context [if ?x =? ?y then _ else _] => destruct (Z.eqb_spec x y)
         end; try contradiction.
  all: try (destruct (value row) as [|? [|? ?]]).
  all: try (destruct (get_source self);
            [destruct (ConvertFromBinaryTime _ _ _) as [? []]|]).
  all: unfold Py.bind;
    repeat match goal with
           | |- context [match ?e with Ok _ => _ | Raise _ => _ end] => destruct e
           end.
  all: intros [= _ <-] || intros [=]; reflexivity.
Qed.

(** A timestamp record met while [self.source] is not set raises
    [AttributeError]. *)
Lemma parse_row_timestamp_unset self row :
  source self = None ->
  (entryType row =? KeyCredentialEntryType.KeyApproximateLastLogonTimeStamp)
  || (entryType row =? KeyCredentialEntryType.KeyCreationTime) = true ->
  parse_row self row = ([], Raise (AttributeError "source")).
Proof.
  intros Hsrc Hty. unfold parse_row, timestamp_row, get_source.
  rewrite Hsrc.
  apply orb_true_iff in Hty as [Hty | Hty]; apply Z.eqb_eq in Hty; rewrite Hty;
    reflexivity.
Qed.

Lemma parse_rows_timestamp_before_source self data :
  source self = None ->
  timestamp_before_source data = true ->
  raises (snd (parse_rows self data)).
Proof.
  revert self. induction data as [|row rest IH]; intros self Hsrc; cbn [timestamp_before_source].
  - discriminate.
  - destruct (_ || _) eqn:Hts.
    + intros _. cbn [parse_rows].
      rewrite parse_row_timestamp_unset by assumption.
      eexists. reflexivity.
    + destruct (Z.eqb_spec (entryType row) KeyCredentialEntryType.KeySource) as [|Hty];
        [discriminate|].
      intros Hrest. cbn [parse_rows].
      destruct (parse_row self row) as [printed [self'|e]] eqn:Hrow.
      * pose proof (parse_row_keeps_source _ _ _ _ Hty Hrow) as Hkeep.
        specialize (IH self' (eq_trans Hkeep Hsrc) Hrest).
        destruct (parse_rows self' rest) as [printed' r]. exact IH.
      * eexists. reflexivity.
Qed.

Lemma constructor_raises (raw_data binary_data : bytes) (data : list Row) :
  binary_data_of raw_data = Ok binary_data ->
  read_entries (skipn 4 binary_data) = Ok data ->
  timestamp_before_source data = true ->
  raises (snd (DN_binary_KeyCredentialLink raw_data)).
Proof.
  unfold binary_data_of, DN_binary_KeyCredentialLink.
  intros Hbin Hdata Hts.
  destruct (decode_utf8 raw_data) as [text|]; [cbn [Py.bind] in *|discriminate].
  rewrite Hbin.
  destruct (index (split_colon text) 3) as [dn|e]; [|eexists; reflexivity].
  unfold parse_binary_data, read. rewrite Hdata.
  destruct (unpack_le 4 (firstn 4 binary_data)) as [version|e]; [|eexists; reflexivity].
  apply parse_rows_timestamp_before_source; [reflexivity | assumption].
Qed.

(** C10.  When, among the records of the blob, a timestamp record comes
    before any KeySource record, the constructor raises: [self.source] is
    read while it has never been assigned.  Hence the constructor returns
    only for blobs in which a KeySource record precedes every timestamp
    record. *)
Theorem timestamp_before_source_raises (raw_data binary_data : bytes) (data : list Row) :
  binary_data_of raw_data = Ok binary_data ->
  read_entries (skipn 4 binary_data) = Ok data ->
  (timestamp_before_source data = true ->
   raises (snd (DN_binary_KeyCredentialLink raw_data)))
  /\ (forall attr,
        snd (DN_binary_KeyCredentialLink raw_data) = Ok attr ->
        timestamp_before_source data = false).
Proof.
  intros Hbin Hdata. split.
  - apply constructor_raises with (binary_data := binary_data); assumption.
  - intros attr Hok. destruct (timestamp_before_source data) eqn:Hts; [|reflexivity].
    destruct (constructor_raises _ _ _ Hbin Hdata Hts) as (e & He). congruence.
Qed.

End KeyCredentialLinkProperties.

Lemma timestamp_before_source_raises_witness :
  raises (snd (@DN_binary_KeyCredentialLink ticks_clock value_timestamp_first)).
Proof.
  exact (proj1
           (@timestamp_before_source_raises ticks_clock value_timestamp_first
              [x00; x02; x00; x00; x08; x00; x09; x00; x00; x00; x00; x00; x00; x00; x00]
              [{| entryType := 9; value := [x00; x00; x00; x00; x00; x00; x00; x00] |}]
              eq_refl eq_refl)
           eq_refl).
Defined.

(** On that value the exception is the [AttributeError] of [self.source];
    with a KeySource record first, the same timestamp record is decoded. *)
Lemma timestamp_first_AttributeError :
  snd (@DN_binary_KeyCredentialLink ticks_clock value_timestamp_first)
  = Raise (AttributeError "source")
  /\ snd (@DN_binary_KeyCredentialLink ticks_clock value_source_first)
     = Ok {| structure_dn := dn_ws01;
             version := 512;
             parsed_data :=
               [("version", VInt 512); ("KeySource", VInt 0);
              ("KeyCreationTime", @VDatetime ticks_clock 0)];
             source := Some 0 |}.
Proof.
  split; reflexivity.
Qed.

(** ** Properties of [ShadowCredentials] *)

Section ShadowCredentialsProperties.

Context {clock : Clock} {lt : ldaptypes} {server : Server}.
Variable globals : Globals.

Lemma same_view_refl st : same_view st st.
Proof. repeat split. Qed.

Lemma same_view_sym st1 st2 : same_view st1 st2 -> same_view st2 st1.
Proof. intros (? & ? & ?). repeat split; congruence. Qed.

Lemma same_view_trans st1 st2 st3 :
  same_view st1 st2 -> same_view st2 st3 -> same_view st1 st3.
Proof. intros (? & ? & ?) (? & ? & ?). repeat split; congruence. Qed.

Lemma same_view_with_DN target_dn st1 st2 :
  same_view st1 st2 ->
  same_view (with_DN_delegate_to target_dn st1) (with_DN_delegate_to target_dn st2).
Proof. intros (? & ? & ?). repeat split; cbn; congruence. Qed.

(** The statements the methods are made of. *)

Lemma readonly_ret {A} (a : A) : readonly (ret a).
Proof.
  intros st1 st2 _. repeat split. exists []. cbn. now rewrite app_nil_r.
Qed.

Lemma readonly_raise {A} (e : exn) : readonly (@raise A e).
Proof.
  intros st1 st2 _. repeat split. exists []. cbn. now rewrite app_nil_r.
Qed.

Lemma readonly_lift {A} (r : result A) : readonly (lift r).
Proof.
  intros st1 st2 _. repeat split. exists []. cbn. now rewrite app_nil_r.
Qed.

Lemma readonly_global {A} name (binding : option A) : readonly (global name binding).
Proof.
  destruct binding; [apply readonly_ret | apply readonly_raise].
Qed.

Lemma readonly_unpack_pair {A B} (x : option (A * B)) : readonly (unpack_pair x).
Proof.
  destruct x; [apply readonly_ret | apply readonly_raise].
Qed.

Lemma readonly_log l msg : readonly (log l msg).
Proof.
  intros st1 st2 _. repeat split. exists [(l, msg)]. reflexivity.
Qed.

Lemma readonly_print lines : readonly (print lines).
Proof.
  intros st1 st2 _. repeat split. exists []. cbn. now rewrite app_nil_r.
Qed.

Lemma readonly_set_delegate_from v : readonly (set_delegate_from v).
Proof.
  intros st1 st2 _. repeat split. exists []. cbn. now rewrite app_nil_r.
Qed.

Lemma readonly_set_SID_delegate_from v : readonly (set_SID_delegate_from v).
Proof.
  intros st1 st2 _. repeat split. exists []. cbn. now rewrite app_nil_r.
Qed.

Lemma readonly_get_DN_delegate_to : readonly (get DN_delegate_to).
Proof.
  intros st1 st2 (? & ? & ?). repeat split; cbn; [congruence|].
  exists []. now rewrite app_nil_r.
Qed.

Lemma readonly_get_delegate_to : readonly (get delegate_to).
Proof.
  intros st1 st2 (? & ? & ?). repeat split; cbn; [congruence|].
  exists []. now rewrite app_nil_r.
Qed.

Lemma readonly_search_sAMAccountName samname : readonly (ldap_search_sAMAccountName samname).
Proof.
  intros st1 st2 (? & ? & ?). repeat split; cbn; [congruence|].
  exists []. now rewrite app_nil_r.
Qed.

Lemma readonly_search_objectSid sid : readonly (ldap_search_objectSid sid).
Proof.
  intros st1 st2 (? & ? & ?). repeat split; cbn; [congruence|].
  exists []. now rewrite app_nil_r.
Qed.

Lemma readonly_search_base base : readonly (ldap_search_base base).
Proof.
  intros st1 st2 (? & ? & ?). repeat split; cbn; [congruence|].
  exists []. now rewrite app_nil_r.
Qed.

Lemma readonly_seq {A B} (c : Prog A) (k : A -> Prog B) :
  readonly c -> (forall a, readonly (k a)) -> readonly (seq c k).
Proof.
  intros Hc Hk st1 st2 Hv.
  destruct (Hc st1 st2 Hv) as (Hfst & Hv1 & l1 & Hl1).
  destruct (Hc st2 st2 (same_view_refl st2)) as (_ & Hv2 & _).
  unfold seq.
  destruct (c st1) as [r1 st1'], (c st2) as [r2 st2']. cbn in *. subst r2.
  destruct r1 as [a|e]; cbn.
  - assert (same_view st1' st2') as Hv'.
    { eapply same_view_trans; [exact Hv1|].
      eapply same_view_trans; [exact Hv|]. apply same_view_sym, Hv2. }
    destruct (Hk a st1' st2' Hv') as (Hfst' & Hv1' & l2 & Hl2).
    repeat split; try assumption.
    + destruct Hv1' as (? & ? & ?), Hv1 as (? & ? & ?); congruence.
    + destruct Hv1' as (? & ? & ?), Hv1 as (? & ? & ?); congruence.
    + destruct Hv1' as (? & ? & ?), Hv1 as (? & ? & ?); congruence.
    + exists (l1 ++ l2). rewrite Hl2, Hl1, app_assoc. reflexivity.
  - repeat split; try apply Hv1. exists l1. assumption.
Qed.

Lemma readonly_except_IndexError {A} (body handler : Prog A) :
  readonly body -> readonly handler -> readonly (except_IndexError body handler).
Proof.
  intros Hb Hh st1 st2 Hv.
  destruct (Hb st1 st2 Hv) as (Hfst & Hv1 & l1 & Hl1).
  destruct (Hb st2 st2 (same_view_refl st2)) as (_ & Hv2 & _).
  unfold except_IndexError.
  destruct (body st1) as [r1 st1'], (body st2) as [r2 st2']. cbn in *. subst r2.
  assert (same_view st1' st2') as Hv'.
  { eapply same_view_trans; [exact Hv1|].
    eapply same_view_trans; [exact Hv|]. apply same_view_sym, Hv2. }
  destruct r1 as [a|[]]; cbn; try (repeat split; try apply Hv1; exists l1; assumption).
  destruct (Hh st1' st2' Hv') as (Hfst' & Hv1' & l2 & Hl2).
  repeat split; try assumption.
  - destruct Hv1' as (? & ? & ?), Hv1 as (? & ? & ?); congruence.
  - destruct Hv1' as (? & ? & ?), Hv1 as (? & ? & ?); congruence.
  - destruct Hv1' as (? & ? & ?), Hv1 as (? & ? & ?); congruence.
  - exists (l1 ++ l2). rewrite Hl2, Hl1, app_assoc. reflexivity.
Qed.

Ltac readonly_steps :=
  repeat first
    [ apply readonly_seq; [|intro]
    | apply readonly_except_IndexError
    | apply readonly_ret
    | apply readonly_raise
    | apply readonly_lift
    | apply readonly_log
    | apply readonly_print
    | apply readonly_global
    | apply readonly_unpack_pair
    | apply readonly_get_DN_delegate_to
    | apply readonly_get_delegate_to
    | apply readonly_search_sAMAccountName
    | apply readonly_search_objectSid
    | apply readonly_search_base
    | apply readonly_set_delegate_from
    | apply readonly_set_SID_delegate_from ].

Lemma readonly_get_user_info samname : readonly (get_user_info samname).
Proof. unfold get_user_info. readonly_steps. Qed.

Lemma readonly_get_sid_info sid : readonly (get_sid_info sid).
Proof. unfold get_sid_info. readonly_steps. Qed.

Lemma readonly_list_aces aces : readonly (list_aces aces).
Proof.
  induction aces as [|ace rest IH]; cbn [list_aces]; readonly_steps.
  exact IH.
Qed.

Lemma readonly_get_keycredentiallink : readonly (get_keycredentiallink globals).
Proof.
  unfold get_keycredentiallink. readonly_steps.
  destruct (last_searchResEntry _); readonly_steps.
  destruct (DN_binary_KeyCredentialLink _). readonly_steps.
  destruct (Dacl_aces _); readonly_steps.
  apply readonly_list_aces.
Qed.

Lemma readonly_report_result answer success : readonly (report_result answer success).
Proof.
  unfold report_result. destruct answer as [code message].
  destruct (code =? 0).
  - induction success as [|msg rest IH]; cbn [fold_right]; readonly_steps. exact IH.
  - destruct (code =? 50); [|destruct (code =? 19)]; apply readonly_log.
Qed.

(** Running a statement that only looks, when its outcome is known. *)
Lemma readonly_run {A B} (c : Prog A) (k : A -> Prog B) st0 st a :
  readonly c -> same_view st st0 -> fst (c st0) = Ok a ->
  exists st', seq c k st = k a st' /\ same_view st' st0
              /\ exists l, logs st' = logs st ++ l.
Proof.
  intros Hc Hv Ha. destruct (Hc st st0 Hv) as (Hfst & Hv' & l & Hl).
  unfold seq. destruct (c st) as [r st']. cbn in *.
  rewrite Hfst, Ha. exists st'. split; [reflexivity|]. split.
  - eapply same_view_trans; eassumption.
  - exists l. assumption.
Qed.

Lemma readonly_modifications {A} (c : Prog A) st :
  readonly c -> modifications (snd (c st)) = modifications st.
Proof.
  intros Hc. destruct (Hc st st (same_view_refl st)) as (_ & (H & _) & _). exact H.
Qed.

(** One step of a method: [c] only looks and its outcome at [st0] is [a]. *)
Ltac run_with Hc Ha :=
  match goal with
  | Hv : same_view ?st ?st0 |- context [seq ?c ?k ?st] =>
      let st' := fresh "st" in
      let Hrun := fresh "Hrun" in
      let Hv' := fresh "Hv" in
      let l := fresh "l" in
      let Hl := fresh "Hl" in
      destruct (readonly_run c k st0 st _ Hc Hv Ha) as (st' & Hrun & Hv' & l & Hl);
      rewrite Hrun; clear Hrun; cbv beta iota; clear Hv
  end.

Ltac readonly_tail :=
  repeat first
    [ apply readonly_report_result
    | apply readonly_get_keycredentiallink
    | apply readonly_get_user_info
    | apply readonly_log
    | apply readonly_ret
    | apply readonly_seq; [|intro] ].

Lemma ldap_modify_run {B} target values (k : Z * string -> Prog B) st :
  seq (ldap_modify target values) k st =
  k (modify_answer (modifications st) (replace_request target values))
    (snd (ldap_modify target values st)).
Proof. reflexivity. Qed.

Lemma set_DN_delegate_to_run {B} target_dn (k : unit -> Prog B) st :
  seq (set_DN_delegate_to target_dn) k st = k tt (with_DN_delegate_to target_dn st).
Proof. reflexivity. Qed.

Lemma remove_writes st d from_dn sid target_dn target_sid sd targetuser :
  fst (get_user_info d st) = Ok (Some (from_dn, sid)) ->
  fst (get_user_info (delegate_to st) st) = Ok (Some (target_dn, target_sid)) ->
  fst (get_keycredentiallink globals (with_DN_delegate_to target_dn st))
  = Ok (Some (sd, targetuser)) ->
  modifications (snd (remove globals d st)) =
  modifications st ++
  [replace_request (dn targetuser)
     [getData (set_aces sd
        (filter (fun ace => negb (String.eqb sid (formatCanonical (Sid ace))))
           (Dacl_aces sd)))]].
Proof.
  intros Hfrom Hto Hfetch.
  pose proof (same_view_refl st) as Hv.
  unfold remove.
  run_with (readonly_set_delegate_from d) (eq_refl : fst (set_delegate_from d st) = Ok tt).
  run_with (readonly_get_user_info d) Hfrom.
  run_with (readonly_set_SID_delegate_from sid)
    (eq_refl : fst (set_SID_delegate_from sid st) = Ok tt).
  run_with readonly_get_delegate_to (eq_refl : fst (get delegate_to st) = Ok (delegate_to st)).
  run_with (readonly_get_user_info (delegate_to st)) Hto.
  rewrite set_DN_delegate_to_run.
  match goal with Hv : same_view _ st |- _ => apply (same_view_with_DN target_dn) in Hv end.
  run_with readonly_get_keycredentiallink Hfetch.
  match goal with
  | Hv : same_view ?s _ |- _ =>
      run_with (readonly_unpack_pair (Some (sd, targetuser)))
        (eq_refl : fst (unpack_pair (Some (sd, targetuser)) s) = Ok (sd, targetuser))
  end.
  rewrite ldap_modify_run.
  rewrite readonly_modifications by readonly_tail.
  match goal with Hv : same_view _ _ |- _ => destruct Hv as (Hm & _ & _) end.
  cbn [ldap_modify snd modifications]. rewrite Hm. reflexivity.
Qed.

Lemma flush_writes st target_dn target_sid sd targetuser :
  fst (get_user_info (delegate_to st) st) = Ok (Some (target_dn, target_sid)) ->
  fst (get_keycredentiallink globals (with_DN_delegate_to target_dn st))
  = Ok (Some (sd, targetuser)) ->
  modifications (snd (flush globals st)) =
  modifications st ++ [replace_request (dn targetuser) []].
Proof.
  intros Hto Hfetch.
  pose proof (same_view_refl st) as Hv.
  unfold flush.
  run_with readonly_get_delegate_to (eq_refl : fst (get delegate_to st) = Ok (delegate_to st)).
  run_with (readonly_get_user_info (delegate_to st)) Hto.
  rewrite set_DN_delegate_to_run.
  match goal with Hv : same_view _ st |- _ => apply (same_view_with_DN target_dn) in Hv end.
  run_with readonly_get_keycredentiallink Hfetch.
  match goal with
  | Hv : same_view ?s _ |- _ =>
      run_with (readonly_unpack_pair (Some (sd, targetuser)))
        (eq_refl : fst (unpack_pair (Some (sd, targetuser)) s) = Ok (sd, targetuser))
  end.
  rewrite ldap_modify_run.
  rewrite readonly_modifications by readonly_tail.
  match goal with Hv : same_view _ _ |- _ => destruct Hv as (Hm & _ & _) end.
  cbn [ldap_modify snd modifications]. rewrite Hm. reflexivity.
Qed.

Lemma log_run {B} l msg (k : unit -> Prog B) st :
  seq (log l msg) k st = k tt (add_logs [(l, msg)] st).
Proof. reflexivity. Qed.

Lemma seq_assoc {A B C} (c : Prog A) (f : A -> Prog B) (k : B -> Prog C) st :
  seq (seq c f) k st = seq c (fun a => seq (f a) k) st.
Proof.
  unfold seq. destruct (c st) as [[a|e] st']; [|reflexivity].
  destruct (f a st') as [[b|e] st'']; reflexivity.
Qed.

Lemma same_view_add_logs l st st0 : same_view st st0 -> same_view (add_logs l st) st0.
Proof. intros (? & ? & ?). repeat split; assumption. Qed.

(** [write] up to the test on the SIDs of the DACL. *)
Lemma write_reaches_test st d from_dn sid target_dn target_sid sd targetuser :
  fst (get_user_info d st) = Ok (Some (from_dn, sid)) ->
  fst (get_user_info (delegate_to st) st) = Ok (Some (target_dn, target_sid)) ->
  fst (get_keycredentiallink globals (with_DN_delegate_to target_dn st))
  = Ok (Some (sd, targetuser)) ->
  exists st',
    same_view st' (with_DN_delegate_to target_dn st)
    /\ write globals d st =
       seq (if existsb (String.eqb sid) (canonical_sids sd) then
              seq (log INFO (d ++ " can already impersonate users on " ++ delegate_to st
                             ++ " via S4U2Proxy")%string)
                (fun _ => log INFO "Not modifying the delegation rights.")
            else
              seq (global "create_allow_ace" (create_allow_ace globals))
                (fun allow =>
                   seq (ldap_modify (dn targetuser)
                          [getData (set_aces sd (Dacl_aces sd ++ [allow sid]))])
                     (fun answer =>
                        report_result answer
                          ["Delegation rights modified successfully!";
                           (d ++ " can now impersonate users on " ++ delegate_to st
                            ++ " via S4U2Proxy")%string])))
         (fun _ => seq (get_keycredentiallink globals) (fun _ => ret tt)) st'.
Proof.
  intros Hfrom Hto Hfetch.
  pose proof (same_view_refl st) as Hv.
  unfold write.
  run_with (readonly_set_delegate_from d) (eq_refl : fst (set_delegate_from d st) = Ok tt).
  run_with (readonly_get_user_info d) Hfrom.
  run_with (readonly_set_SID_delegate_from sid)
    (eq_refl : fst (set_SID_delegate_from sid st) = Ok tt).
  run_with readonly_get_delegate_to (eq_refl : fst (get delegate_to st) = Ok (delegate_to st)).
  run_with (readonly_get_user_info (delegate_to st)) Hto.
  rewrite set_DN_delegate_to_run.
  match goal with Hv : same_view _ st |- _ => apply (same_view_with_DN target_dn) in Hv end.
  run_with readonly_get_keycredentiallink Hfetch.
  match goal with
  | Hv : same_view ?s _ |- _ =>
      run_with (readonly_unpack_pair (Some (sd, targetuser)))
        (eq_refl : fst (unpack_pair (Some (sd, targetuser)) s) = Ok (sd, targetuser))
  end.
  eexists. split; [eassumption | reflexivity].
Qed.

(** The SID is already in the DACL: nothing is sent, the two informational
    records are logged, and the method returns. *)
Lemma write_guard st d from_dn sid target_dn target_sid sd targetuser :
  fst (get_user_info d st) = Ok (Some (from_dn, sid)) ->
  fst (get_user_info (delegate_to st) st) = Ok (Some (target_dn, target_sid)) ->
  fst (get_keycredentiallink globals (with_DN_delegate_to target_dn st))
  = Ok (Some (sd, targetuser)) ->
  existsb (String.eqb sid) (canonical_sids sd) = true ->
  fst (write globals d st) = Ok tt
  /\ modifications (snd (write globals d st)) = modifications st
  /\ In (INFO, "Not modifying the delegation rights.") (logs (snd (write globals d st))).
Proof.
  intros Hfrom Hto Hfetch Hin.
  destruct (write_reaches_test _ _ _ _ _ _ _ _ Hfrom Hto Hfetch) as (st' & Hv & ->).
  rewrite Hin, seq_assoc, log_run, log_run.
  apply (same_view_add_logs
           [(INFO, (d ++ " can already impersonate users on " ++ delegate_to st
                    ++ " via S4U2Proxy")%string)]) in Hv.
  apply (same_view_add_logs [(INFO, "Not modifying the delegation rights.")]) in Hv.
  match goal with
  | |- context [seq _ _ ?s] =>
      destruct (readonly_run (get_keycredentiallink globals) (fun _ => ret tt)
                  _ s _ readonly_get_keycredentiallink Hv Hfetch)
        as (st'' & -> & Hv' & l & Hl)
  end.
  cbn [ret fst snd]. split; [reflexivity|]. split.
  - destruct Hv' as (-> & _ & _). reflexivity.
  - rewrite Hl. cbn [add_logs logs]. rewrite !in_app_iff. left. right. left. reflexivity.
Qed.

(** The SID is not in the DACL: [create_allow_ace] is evaluated.  When the
    module binds it the ACE it returns is appended and the descriptor is
    sent; when it does not, [NameError] is raised and nothing is sent. *)
Lemma write_new_sid st d from_dn sid target_dn target_sid sd targetuser :
  fst (get_user_info d st) = Ok (Some (from_dn, sid)) ->
  fst (get_user_info (delegate_to st) st) = Ok (Some (target_dn, target_sid)) ->
  fst (get_keycredentiallink globals (with_DN_delegate_to target_dn st))
  = Ok (Some (sd, targetuser)) ->
  existsb (String.eqb sid) (canonical_sids sd) = false ->
  match create_allow_ace globals with
  | Some allow =>
      modifications (snd (write globals d st)) =
      modifications st ++
      [replace_request (dn targetuser)
         [getData (set_aces sd (Dacl_aces sd ++ [allow sid]))]]
  | None =>
      fst (write globals d st) = Raise (NameError "create_allow_ace")
      /\ modifications (snd (write globals d st)) = modifications st
  end.
Proof.
  intros Hfrom Hto Hfetch Hin.
  destruct (write_reaches_test _ _ _ _ _ _ _ _ Hfrom Hto Hfetch) as (st' & Hv & ->).
  rewrite Hin. destruct (create_allow_ace globals) as [allow|].
  - rewrite !seq_assoc. cbn [global].
    change (seq (ret allow) ?k st') with (k allow st'). cbv beta.
    rewrite seq_assoc, ldap_modify_run.
    rewrite readonly_modifications by readonly_tail.
    destruct Hv as (Hm & _ & _).
    cbn [ldap_modify snd modifications]. rewrite Hm. reflexivity.
  - cbn. destruct Hv as (Hm & _ & _). split; [reflexivity | exact Hm].
Qed.

(** The attribute is absent: [IndexError] is caught and [create_empty_sd] is
    evaluated. *)
Lemma get_keycredentiallink_absent st targetuser :
  last_searchResEntry (search_base (modifications st) (DN_delegate_to st)) = Some targetuser ->
  raw_KeyCredentialLink targetuser = [] ->
  fst (get_keycredentiallink globals st) =
  match create_empty_sd globals with
  | Some sd => Ok (Some (sd, targetuser))
  | None => Raise (NameError "create_empty_sd")
  end.
Proof.
  intros Htarget Hraw.
  unfold get_keycredentiallink, seq at 1, get. cbn [fst snd].
  unfold seq at 1, ldap_search_base. rewrite Htarget.
  unfold seq at 1, except_IndexError, seq at 1, lift. rewrite Hraw. cbn [index nth_error].
  rewrite log_run. destruct (create_empty_sd globals); reflexivity.
Qed.

Lemma get_sid_info_run sid st :
  get_sid_info sid st =
  match search_objectSid (modifications st) sid with
  | e :: _ => (Ok (Some (entry_dn e, samaccountname e)), st)
  | [] => (Ok None, add_logs [(ERROR, ("SID not found in LDAP: " ++ sid)%string)] st)
  end.
Proof.
  unfold get_sid_info, seq, ldap_search_objectSid, except_IndexError, lift.
  destruct (search_objectSid (modifications st) sid); reflexivity.
Qed.

(** The loop of the listing stops with [TypeError] at the first ACE whose
    SID has no entry in the directory. *)
Lemma list_aces_unresolved pre ace post st :
  (forall a, In a pre -> resolved_name (modifications st) (formatCanonical (Sid a)) <> None) ->
  resolved_name (modifications st) (formatCanonical (Sid ace)) = None ->
  list_aces (pre ++ ace :: post) st =
  (Raise TypeError,
   add_logs (map (listing_line (modifications st)) pre
             ++ [(ERROR, ("SID not found in LDAP: " ++ formatCanonical (Sid ace))%string)]) st).
Proof.
  revert st. induction pre as [|a pre IH]; intros st Hpre Hace; cbn [app list_aces map].
  - unfold seq at 1. rewrite get_sid_info_run. unfold resolved_name in Hace.
    destruct (search_objectSid _ _); [reflexivity | discriminate].
  - unfold seq at 1. rewrite get_sid_info_run.
    pose proof (Hpre a (or_introl eq_refl)) as Ha.
    unfold listing_line at 1. unfold resolved_name in Ha |- *.
    destruct (search_objectSid (modifications st) (formatCanonical (Sid a))) as [|e es];
      [congruence|].
    unfold seq at 1, lift, subscript_1. rewrite log_run.
    rewrite IH.
    + cbn [add_logs modifications logs]. unfold add_logs. cbn.
      rewrite <- app_assoc. reflexivity.
    + intros a' Ha'. apply Hpre. right. exact Ha'.
    + exact Hace.
Qed.


(** [get_keycredentiallink] on an attribute that both parsers accept. *)
Lemma get_keycredentiallink_parsed st targetuser raw rest printed attr sd :
  last_searchResEntry (search_base (modifications st) (DN_delegate_to st)) = Some targetuser ->
  raw_KeyCredentialLink targetuser = raw :: rest ->
  DN_binary_KeyCredentialLink raw = (printed, Ok attr) ->
  SR_SECURITY_DESCRIPTOR raw = Ok sd ->
  Dacl_aces sd <> [] ->
  get_keycredentiallink globals st =
  seq (except_IndexError
         (seq (list_aces (Dacl_aces sd)) (fun _ => ret sd))
         (seq (log INFO "Attribute msDS-KeyCredentialLink is empty")
            (fun _ => global "create_empty_sd" (create_empty_sd globals))))
    (fun sd => ret (Some (sd, targetuser)))
    (add_logs [(INFO, "Accounts allowed to act on behalf of other identity:")]
       (snd (print printed st))).
Proof.
  intros Htarget Hraw Hattr Hsd Haces.
  unfold get_keycredentiallink, seq at 1, get. cbn [fst snd].
  unfold seq at 1, ldap_search_base. rewrite Htarget.
  unfold seq at 1 3, except_IndexError, seq at 1 3, lift.
  rewrite Hraw. cbn [index nth_error]. rewrite Hattr.
  cbn [print]. unfold seq at 1. unfold seq at 1. rewrite Hsd.
  destruct (Dacl_aces sd) as [|a aces] eqn:E; [congruence|].
  reflexivity.
Qed.

Lemma get_keycredentiallink_unresolved st targetuser raw rest printed attr sd pre ace post :
  last_searchResEntry (search_base (modifications st) (DN_delegate_to st)) = Some targetuser ->
  raw_KeyCredentialLink targetuser = raw :: rest ->
  DN_binary_KeyCredentialLink raw = (printed, Ok attr) ->
  SR_SECURITY_DESCRIPTOR raw = Ok sd ->
  Dacl_aces sd = pre ++ ace :: post ->
  (forall a, In a pre -> resolved_name (modifications st) (formatCanonical (Sid a)) <> None) ->
  resolved_name (modifications st) (formatCanonical (Sid ace)) = None ->
  get_keycredentiallink globals st =
  (Raise TypeError,
   add_logs
     ((INFO, "Accounts allowed to act on behalf of other identity:")
      :: map (listing_line (modifications st)) pre
      ++ [(ERROR, ("SID not found in LDAP: " ++ formatCanonical (Sid ace))%string)])
     (snd (print printed st))).
Proof.
  intros Htarget Hraw Hattr Hsd Haces Hpre Hace.
  rewrite (get_keycredentiallink_parsed _ _ _ _ _ _ _ Htarget Hraw Hattr Hsd)
    by (rewrite Haces; destruct pre; discriminate).
  unfold seq at 1, except_IndexError, seq at 1.
  rewrite Haces, list_aces_unresolved by assumption.
  unfold add_logs. cbn. rewrite <- app_assoc. reflexivity.
Qed.


End ShadowCredentialsProperties.

(** ** The edit actions and the directory *)

(** C1 (as amended).  Once the two accounts are found and the descriptor of
    the target is fetched: [write] sends nothing when the DACL already holds
    an ACE with the SID to add, logs "Not modifying the delegation rights."
    and returns; [remove] always sends one replace request carrying the
    re-encoded descriptor, whether or not an ACE matched; [flush] always sends
    one replace request. *)
Theorem edit_actions_writes {clock : Clock} {lt : ldaptypes} {server : Server}
    (globals : Globals) st d from_dn sid target_dn target_sid sd targetuser :
  fst (get_user_info d st) = Ok (Some (from_dn, sid)) ->
  fst (get_user_info (delegate_to st) st) = Ok (Some (target_dn, target_sid)) ->
  fst (get_keycredentiallink globals (with_DN_delegate_to target_dn st))
  = Ok (Some (sd, targetuser)) ->
  (existsb (String.eqb sid) (canonical_sids sd) = true ->
   fst (write globals d st) = Ok tt
   /\ modifications (snd (write globals d st)) = modifications st
   /\ In (INFO, "Not modifying the delegation rights.") (logs (snd (write globals d st))))
  /\ modifications (snd (remove globals d st)) =
     modifications st ++
     [replace_request (dn targetuser)
        [getData (set_aces sd
           (filter (fun ace => negb (String.eqb sid (formatCanonical (Sid ace))))
              (Dacl_aces sd)))]]
  /\ modifications (snd (flush globals st)) =
     modifications st ++ [replace_request (dn targetuser) []].
Proof.
  intros Hfrom Hto Hfetch. split; [|split].
  - intros Hin. eapply write_guard; eassumption.
  - eapply remove_writes; eassumption.
  - eapply flush_writes; eassumption.
Qed.

Lemma edit_actions_writes_witness :
  (fst (@write ticks_clock impacket_ldaptypes (plain_server [descriptor_svc])
          pywhisker_globals "svc$" (init "ws01$")) = Ok tt
   /\ modifications
        (snd (@write ticks_clock impacket_ldaptypes (plain_server [descriptor_svc])
                pywhisker_globals "svc$" (init "ws01$"))) = []
   /\ In (INFO, "Not modifying the delegation rights.")
        (logs (snd (@write ticks_clock impacket_ldaptypes (plain_server [descriptor_svc])
                      pywhisker_globals "svc$" (init "ws01$")))))
  /\ modifications
       (snd (@remove ticks_clock impacket_ldaptypes (plain_server [descriptor_svc])
               pywhisker_globals "svc$" (init "ws01$")))
     = [replace_request dn_ws01 [descriptor_no_ace]]
  /\ modifications
       (snd (@flush ticks_clock impacket_ldaptypes (plain_server [descriptor_svc])
               pywhisker_globals (init "ws01$")))
     = [replace_request dn_ws01 []].
Proof.
  destruct (@edit_actions_writes ticks_clock impacket_ldaptypes (plain_server [descriptor_svc])
              pywhisker_globals (init "ws01$") "svc$" dn_svc sid_plain_svc dn_ws01
              sid_plain_ws01 (plain_sd [plain_ace_svc])
              {| type := "searchResEntry"; dn := dn_ws01;
                 raw_KeyCredentialLink := [descriptor_svc] |}
              eq_refl eq_refl eq_refl) as (Hw & Hr & Hf).
  split; [exact (Hw eq_refl) | split; [exact Hr | exact Hf]].
Defined.

(** C1, as stated, fails.  The value fetched is a descriptor that the
    library parses, with one ACE for [svc$], and that the constructor of
    [DN_binary_KeyCredentialLink] accepts as well.  Removing [attacker$],
    whose SID matches no ACE, re-encodes the descriptor to the very bytes that
    were fetched, and the request is sent all the same. *)
Lemma remove_unmatched_sid_still_writes :
  (exists attr, @DN_binary_KeyCredentialLink ticks_clock descriptor_svc = ([], Ok attr))
  /\ @SR_SECURITY_DESCRIPTOR impacket_ldaptypes descriptor_svc
     = Ok (plain_sd [plain_ace_svc])
  /\ existsb (String.eqb sid_plain_attacker)
       (@canonical_sids impacket_ldaptypes (plain_sd [plain_ace_svc])) = false
  /\ @getData impacket_ldaptypes (plain_sd [plain_ace_svc]) = descriptor_svc
  /\ modifications
       (snd (@remove ticks_clock impacket_ldaptypes (plain_server [descriptor_svc])
               pywhisker_globals "attacker$" (init "ws01$")))
     = [replace_request dn_ws01 [descriptor_svc]].
Proof.
  split; [eexists; vm_compute; reflexivity|].
  repeat split; vm_compute; reflexivity.
Qed.

(** C2 (as amended).  Once the target is found and its descriptor fetched,
    [flush] sends one replace request for the attribute with an empty list of
    values: the attribute is emptied, no descriptor is encoded, and the
    request does not depend on the descriptor that was fetched. *)
Theorem flush_empties_attribute {clock : Clock} {lt : ldaptypes} {server : Server}
    (globals : Globals) st target_dn target_sid sd targetuser :
  fst (get_user_info (delegate_to st) st) = Ok (Some (target_dn, target_sid)) ->
  fst (get_keycredentiallink globals (with_DN_delegate_to target_dn st))
  = Ok (Some (sd, targetuser)) ->
  exists request,
    modifications (snd (flush globals st)) = modifications st ++ [request]
    /\ mod_dn request = dn targetuser
    /\ mod_attribute request = "msDS-AllowedToActOnBehalfOfOtherIdentity"
    /\ mod_values request = [].
Proof.
  intros Hto Hfetch. exists (replace_request (dn targetuser) []).
  split; [eapply flush_writes; eassumption | repeat split].
Qed.

Lemma flush_empties_attribute_witness :
  exists request,
    modifications
      (snd (@flush ticks_clock impacket_ldaptypes (plain_server [descriptor_svc])
              pywhisker_globals (init "ws01$"))) = [request]
    /\ mod_dn request = dn_ws01
    /\ mod_attribute request = "msDS-AllowedToActOnBehalfOfOtherIdentity"
    /\ mod_values request = [].
Proof.
  exact (@flush_empties_attribute ticks_clock impacket_ldaptypes (plain_server [descriptor_svc])
           pywhisker_globals (init "ws01$") dn_ws01 sid_plain_ws01 (plain_sd [plain_ace_svc])
           {| type := "searchResEntry"; dn := dn_ws01;
              raw_KeyCredentialLink := [descriptor_svc] |}
           eq_refl eq_refl).
Defined.

(** C2, as stated, fails.  The descriptor fetched, which the library parses,
    has one ACE, an owner and control flags; what [flush] sends is not the
    encoding of any descriptor: the list of values is empty. *)
Lemma flush_sends_no_descriptor :
  fst (@get_keycredentiallink ticks_clock impacket_ldaptypes (plain_server [descriptor_svc])
         pywhisker_globals (with_DN_delegate_to dn_ws01 (init "ws01$")))
  = Ok (Some (plain_sd [plain_ace_svc],
              {| type := "searchResEntry"; dn := dn_ws01;
                 raw_KeyCredentialLink := [descriptor_svc] |}))
  /\ modifications
       (snd (@flush ticks_clock impacket_ldaptypes (plain_server [descriptor_svc])
               pywhisker_globals (init "ws01$")))
     = [replace_request dn_ws01 []]
  /\ ~ exists sd' : SR_SECURITY_DESCRIPTOR_obj LDAP_SID_obj,
         Dacl_aces sd' = []
         /\ OwnerSid sd' = OwnerSid (plain_sd [plain_ace_svc])
         /\ GroupSid sd' = GroupSid (plain_sd [plain_ace_svc])
         /\ Control sd' = Control (plain_sd [plain_ace_svc])
         /\ mod_values (replace_request dn_ws01 []) = [@getData impacket_ldaptypes sd'].
Proof.
  split; [vm_compute; reflexivity|]. split; [vm_compute; reflexivity|].
  intros (sd' & _ & _ & _ & _ & H). discriminate H.
Qed.

(** C3.  With the module as it is, adding a SID that is not in the DACL
    raises [NameError]: [create_allow_ace] is not bound.  No ACE is appended
    and nothing is sent. *)
Theorem write_raises_NameError {clock : Clock} {lt : ldaptypes} {server : Server}
    st d from_dn sid target_dn target_sid sd targetuser :
  fst (get_user_info d st) = Ok (Some (from_dn, sid)) ->
  fst (get_user_info (delegate_to st) st) = Ok (Some (target_dn, target_sid)) ->
  fst (get_keycredentiallink pywhisker_globals (with_DN_delegate_to target_dn st))
  = Ok (Some (sd, targetuser)) ->
  existsb (String.eqb sid) (canonical_sids sd) = false ->
  fst (write pywhisker_globals d st) = Raise (NameError "create_allow_ace")
  /\ modifications (snd (write pywhisker_globals d st)) = modifications st.
Proof.
  intros Hfrom Hto Hfetch Hin.
  exact (write_new_sid pywhisker_globals _ _ _ _ _ _ _ _ Hfrom Hto Hfetch Hin).
Qed.

Lemma write_raises_NameError_witness :
  fst (@write ticks_clock bench_ldaptypes (bench_server [value_svc] true)
         pywhisker_globals "attacker$" (init "ws01$"))
  = Raise (NameError "create_allow_ace")
  /\ modifications
       (snd (@write ticks_clock bench_ldaptypes (bench_server [value_svc] true)
               pywhisker_globals "attacker$" (init "ws01$"))) = [].
Proof.
  exact (@write_raises_NameError ticks_clock bench_ldaptypes (bench_server [value_svc] true)
           (init "ws01$") "attacker$" dn_attacker sid_attacker dn_ws01
           "S-1-5-21-1004336348-1177238915-682003330-1103" (bench_sd [ace_svc])
           {| type := "searchResEntry"; dn := dn_ws01;
              raw_KeyCredentialLink := [value_svc] |}
           eq_refl eq_refl eq_refl eq_refl).
Defined.

(** C4.  With the module as it is, fetching a target whose attribute is
    absent raises [NameError]: the [IndexError] is caught, and
    [create_empty_sd] is not bound. *)
Theorem absent_attribute_raises_NameError {clock : Clock} {lt : ldaptypes} {server : Server}
    st targetuser :
  last_searchResEntry (search_base (modifications st) (DN_delegate_to st)) = Some targetuser ->
  raw_KeyCredentialLink targetuser = [] ->
  fst (get_keycredentiallink pywhisker_globals st) = Raise (NameError "create_empty_sd").
Proof.
  intros Htarget Hraw.
  exact (get_keycredentiallink_absent pywhisker_globals _ _ Htarget Hraw).
Qed.

Lemma absent_attribute_raises_NameError_witness :
  fst (@get_keycredentiallink ticks_clock bench_ldaptypes (bench_server [] true)
         pywhisker_globals (with_DN_delegate_to dn_ws01 (init "ws01$")))
  = Raise (NameError "create_empty_sd").
Proof.
  exact (@absent_attribute_raises_NameError ticks_clock bench_ldaptypes (bench_server [] true)
           (with_DN_delegate_to dn_ws01 (init "ws01$"))
           {| type := "searchResEntry"; dn := dn_ws01; raw_KeyCredentialLink := [] |}
           eq_refl eq_refl).
Defined.

(** C8.  The listing stops at the first ACE whose SID has no entry in the
    directory: [get_sid_info] returns [False], subscripting it raises
    [TypeError], and [get_keycredentiallink] lets it through.  The log holds
    the lines of the ACEs before it and the "SID not found" record. *)
Theorem listing_aborts_on_unresolved_sid {clock : Clock} {lt : ldaptypes} {server : Server}
    (globals : Globals) st targetuser raw rest printed attr sd pre ace post :
  last_searchResEntry (search_base (modifications st) (DN_delegate_to st)) = Some targetuser ->
  raw_KeyCredentialLink targetuser = raw :: rest ->
  DN_binary_KeyCredentialLink raw = (printed, Ok attr) ->
  SR_SECURITY_DESCRIPTOR raw = Ok sd ->
  Dacl_aces sd = pre ++ ace :: post ->
  (forall a, In a pre -> resolved_name (modifications st) (formatCanonical (Sid a)) <> None) ->
  resolved_name (modifications st) (formatCanonical (Sid ace)) = None ->
  fst (get_keycredentiallink globals st) = Raise TypeError
  /\ logs (snd (get_keycredentiallink globals st)) =
     logs st
     ++ (INFO, "Accounts allowed to act on behalf of other identity:")
        :: map (listing_line (modifications st)) pre
     ++ [(ERROR, ("SID not found in LDAP: " ++ formatCanonical (Sid ace))%string)].
Proof.
  intros Htarget Hraw Hattr Hsd Haces Hpre Hace.
  rewrite (get_keycredentiallink_unresolved globals _ _ _ _ _ _ _ _ _ _
             Htarget Hraw Hattr Hsd Haces Hpre Hace).
  split; reflexivity.
Qed.

Lemma listing_aborts_on_unresolved_sid_witness :
  fst (@get_keycredentiallink ticks_clock bench_ldaptypes (bench_server [value_svc] false)
         pywhisker_globals (with_DN_delegate_to dn_ws01 (init "ws01$")))
  = Raise TypeError
  /\ logs (snd (@get_keycredentiallink ticks_clock bench_ldaptypes
                  (bench_server [value_svc] false)
                  pywhisker_globals (with_DN_delegate_to dn_ws01 (init "ws01$"))))
     = [(INFO, "Accounts allowed to act on behalf of other identity:");
        (ERROR, "SID not found in LDAP: S-1-5-21-1004336348-1177238915-682003330-1105")].
Proof.
  refine (@listing_aborts_on_unresolved_sid ticks_clock bench_ldaptypes
            (bench_server [value_svc] false) pywhisker_globals
            (with_DN_delegate_to dn_ws01 (init "ws01$"))
            {| type := "searchResEntry"; dn := dn_ws01;
               raw_KeyCredentialLink := [value_svc] |}
            value_svc [] [] _ (bench_sd [ace_svc]) [] ace_svc []
            eq_refl eq_refl eq_refl eq_refl eq_refl _ eq_refl).
  intros a [].
Defined.

(** ** Further properties of the decoder *)

Lemma le_int_bound (bs : bytes) : 0 <= le_int bs < 256 ^ Z.of_nat (List.length bs).
Proof.
  induction bs as [|b bs IH]; cbn [le_int List.length].
  - cbn. lia.
  - pose proof (byte_val_range b). rewrite Nat2Z.inj_succ, Z.pow_succ_r by lia. lia.
Qed.

Lemma wire_bytes_header (b0 b1 b2 : byte) (v : bytes) :
  wire_bytes (le_int [b0; b1]) {| entryType := byte_val b2; value := v |}
  = b0 :: b1 :: b2 :: v.
Proof.
  unfold wire_bytes. cbn [entryType value le_int].
  pose proof (byte_val_range b0). pose proof (byte_val_range b1).
  replace ((byte_val b0 + 256 * (byte_val b1 + 256 * 0)) mod 256) with (byte_val b0)
    by (apply Z.mod_unique with (q := byte_val b1); lia).
  replace ((byte_val b0 + 256 * (byte_val b1 + 256 * 0)) / 256) with (byte_val b1)
    by (apply Z.div_unique with (r := byte_val b0); lia).
  rewrite !byte_of_Z_val. reflexivity.
Qed.

(** X1.  When the record loop returns, the stream is the concatenation, in
    order, of the records it returns, each one with its three header bytes
    (the length announced and the tag) and its value: every byte of the
    stream is in exactly one record.  Every tag is below 256, every length
    announced is below 65536, and every record carries as many bytes as its
    header announces, but the last one, which may carry fewer. *)
Theorem read_entries_accounts_for_every_byte (stream : bytes) (rows : list Row) :
  read_entries stream = Ok rows ->
  exists announced : list Z,
    List.length announced = List.length rows
    /\ stream
       = List.concat (map (fun p => wire_bytes (fst p) (snd p)) (combine announced rows))
    /\ Forall (fun p => 0 <= entryType (snd p) < 256
                        /\ Z.of_nat (List.length (value (snd p))) <= fst p < 65536)
         (combine announced rows)
    /\ (forall i n r,
          nth_error (combine announced rows) i = Some (n, r) ->
          (S i < List.length rows)%nat ->
          Z.of_nat (List.length (value r)) = n).
Proof.
  enough (forall m (stream : bytes), (List.length stream <= m)%nat ->
            forall rows, read_entries stream = Ok rows ->
            exists announced : list Z,
              List.length announced = List.length rows
              /\ stream
                 = List.concat
                     (map (fun p => wire_bytes (fst p) (snd p)) (combine announced rows))
              /\ Forall (fun p => 0 <= entryType (snd p) < 256
                                  /\ Z.of_nat (List.length (value (snd p))) <= fst p < 65536)
                   (combine announced rows)
              /\ (forall i n r,
                    nth_error (combine announced rows) i = Some (n, r) ->
                    (S i < List.length rows)%nat ->
                    Z.of_nat (List.length (value r)) = n)) as H
    by (apply (H (List.length stream)); lia).
  clear. induction m as [|m IH]; intros [|b0 [|b1 [|b2 rest]]] Hm rows;
    simp read_entries; cbn [List.length] in Hm; try lia; try discriminate;
    try (intros [= <-]; exists []; repeat split;
         [constructor | intros [|i] n r; discriminate]).
  cbn zeta. set (len := Z.to_nat (le_int [b0; b1])).
  destruct (read_entries (skipn len rest)) as [rows'|e] eqn:E; [|discriminate].
  cbn [Py.bind]. intros [= <-].
  destruct (IH (skipn len rest)) with (rows := rows')
    as (announced & Hlen & Hcat & Hall & Hfull);
    [rewrite length_skipn; lia | exact E |].
  pose proof (le_int_bound [b0; b1]) as Hb. cbn [List.length] in Hb.
  change (256 ^ Z.of_nat 2) with 65536 in Hb.
  exists (le_int [b0; b1] :: announced).
  cbn [combine map List.concat List.length fst snd].
  split; [rewrite Hlen; reflexivity|]. split; [|split].
  - rewrite wire_bytes_header, <- Hcat. cbn [app]. rewrite firstn_skipn. reflexivity.
  - constructor; [|exact Hall]. cbn [fst snd entryType value]. split.
    + apply byte_val_range.
    + rewrite length_firstn. lia.
  - intros [|i] n r; cbn [nth_error].
    + intros [= <- <-] Hmore. cbn [value]. rewrite length_firstn.
      assert (skipn len rest <> []) as Hne.
      { intros Hnil. rewrite Hnil in E. simp read_entries in E.
        injection E as <-. cbn in Hmore. lia. }
      assert (List.length (skipn len rest) <> 0%nat) as Hne'
        by (destruct (skipn len rest); [contradiction | discriminate]).
      rewrite length_skipn in Hne'. subst len.
      change (Z.of_nat (Nat.min (Z.to_nat (le_int [b0; b1])) (List.length rest))
              = le_int [b0; b1]).
      lia.
    + intros Hnth Hmore. apply (Hfull i); [exact Hnth | lia].
Qed.

Lemma read_entries_accounts_for_every_byte_witness :
  exists announced : list Z,
    List.length announced = 2%nat
    /\ [x01; x00; x03; xaa; x05; x00; x03; xaa; xbb]
       = List.concat
           (map (fun p => wire_bytes (fst p) (snd p))
              (combine announced
                 [{| entryType := 3; value := [xaa] |};
                  {| entryType := 3; value := [xaa; xbb] |}]))
    /\ Forall (fun p => 0 <= entryType (snd p) < 256
                        /\ Z.of_nat (List.length (value (snd p))) <= fst p < 65536)
         (combine announced
            [{| entryType := 3; value := [xaa] |};
             {| entryType := 3; value := [xaa; xbb] |}])
    /\ (forall i n r,
          nth_error (combine announced
                       [{| entryType := 3; value := [xaa] |};
                        {| entryType := 3; value := [xaa; xbb] |}]) i = Some (n, r) ->
          (S i < 2)%nat ->
          Z.of_nat (List.length (value r)) = n).
Proof.
  exact (read_entries_accounts_for_every_byte
           [x01; x00; x03; xaa; x05; x00; x03; xaa; xbb] _ eq_refl).
Defined.




(** X3.  [CustomKeyInformation] needs its two mandatory bytes: on the empty
    input and on a single byte it raises [struct.error]. *)
Theorem CustomKeyInformation_too_short (keyMaterial : bytes) (version : Z) :
  (List.length keyMaterial < 2)%nat ->
  CustomKeyInformation keyMaterial version = Raise struct_error.
Proof.
  intros Hlen. destruct keyMaterial as [|b0 [|b1 rest]]; [reflexivity | reflexivity |].
  cbn in Hlen. lia.
Qed.

Lemma CustomKeyInformation_too_short_witness :
  CustomKeyInformation [] 512 = Raise struct_error.
Proof.
  apply CustomKeyInformation_too_short. cbn. lia.
Defined.

(** X4.  From two to six bytes the fields are filled in order from the bytes
    that are present and the others are [None]: the version and the flags,
    then the volume type, the notification flag (true when the byte is not
    zero), the FEK key version and the strength.  The [version] argument
    plays no part. *)
Theorem CustomKeyInformation_layout (keyMaterial : bytes) (version : Z) :
  (2 <= List.length keyMaterial <= 6)%nat ->
  CustomKeyInformation keyMaterial version =
  Ok {| Version := byte_val (nth 0 keyMaterial x00);
        Flags := byte_val (nth 1 keyMaterial x00);
        VolumeType := option_map byte_val (nth_error keyMaterial 2);
        SupportsNotification :=
          option_map (fun b => negb (byte_val b =? 0)) (nth_error keyMaterial 3);
        FekKeyVersion := option_map byte_val (nth_error keyMaterial 4);
        Strength := option_map byte_val (nth_error keyMaterial 5);
        Reserved := None;
        EncodedExtendedCKI := None |}.
Proof.
  intros Hlen.
  do 2 (destruct keyMaterial as [|? keyMaterial]; [cbn in Hlen; lia|]).
  do 4 (destruct keyMaterial as [|? keyMaterial];
        [cbn; rewrite ?Z.add_0_r; reflexivity|]).
  destruct keyMaterial; [cbn; rewrite ?Z.add_0_r; reflexivity | cbn in Hlen; lia].
Qed.

Lemma CustomKeyInformation_layout_witness :
  CustomKeyInformation [x01; x02; x03; x00] 512 =
  Ok {| Version := 1; Flags := 2; VolumeType := Some 3; SupportsNotification := Some false;
        FekKeyVersion := None; Strength := None; Reserved := None;
        EncodedExtendedCKI := None |}.
Proof.
  apply (CustomKeyInformation_layout [x01; x02; x03; x00] 512). cbn. lia.
Defined.


Lemma slice_firstn {A} (i j n : nat) (l : list A) :
  (j <= n)%nat -> slice i j (firstn n l) = slice i j l.
Proof.
  intros Hj. unfold slice.
  rewrite skipn_firstn_comm, firstn_firstn. f_equal. lia.
Qed.

(** X5.  [Guid] raises [struct.error] on fewer than ten bytes, returns a
    string from ten bytes on, and reads nothing past the sixteenth byte. *)
Theorem Guid_sizes (data : bytes) :
  ((List.length data < 10)%nat -> Guid data = Raise struct_error)
  /\ ((10 <= List.length data)%nat -> exists s, Guid data = Ok s)
  /\ Guid (firstn 16 data) = Guid data.
Proof.
  repeat split.
  - intros Hlen.
    do 10 (destruct data as [|? data]; [reflexivity|]). cbn in Hlen. lia.
  - intros Hlen.
    do 10 (destruct data as [|? data]; [cbn in Hlen; lia|]).
    eexists. reflexivity.
  - unfold Guid. rewrite !slice_firstn by lia. reflexivity.
Qed.

Lemma Guid_sizes_witness :
  Guid [x01; x02; x03] = Raise struct_error
  /\ exists s, Guid [x00; x01; x02; x03; x04; x05; x06; x07; x08; x09] = Ok s.
Proof.
  destruct (Guid_sizes [x01; x02; x03]) as (H1 & _ & _).
  destruct (Guid_sizes [x00; x01; x02; x03; x04; x05; x06; x07; x08; x09]) as (_ & H2 & _).
  split; [apply H1; cbn; lia | apply H2; cbn; lia].
Defined.

(** X6.  For the two legacy versions the identifier rule inverts
    [binascii.hexlify]: the hexadecimal text of any bytes decodes to those
    bytes. *)
Theorem ConvertToBinaryIdentifier_legacy_round_trip (bs : bytes) (version : Z) :
  legacy_version version = true ->
  ConvertToBinaryIdentifier (list_byte_of_string (hexlify bs)) version = Ok bs.
Proof.
  intros Hv. unfold ConvertToBinaryIdentifier. unfold legacy_version in Hv.
  rewrite Hv. apply unhexlify_hexlify.
Qed.

Lemma ConvertToBinaryIdentifier_legacy_round_trip_witness :
  ConvertToBinaryIdentifier (list_byte_of_string (hexlify [x00; xff; x10])) 256
  = Ok [x00; xff; x10].
Proof.
  apply ConvertToBinaryIdentifier_legacy_round_trip. reflexivity.
Defined.

(** ** The identifier rule and base64 *)

Lemma b64_char_value (v : Z) :
  0 <= v < 64 ->
  (byte_val (b64_char v) =? 61) = false /\ b64_value (b64_char v) = Some v.
Proof.
  intros Hv. rewrite <- (Z2Nat.id v) by lia.
  assert (Z.to_nat v < 64)%nat as Hk by lia.
  revert Hk. generalize (Z.to_nat v). intros n Hn.
  do 64 (destruct n as [|n]; [split; reflexivity|]). lia.
Qed.

Lemma below_forallb (n : nat) (P : Z -> bool) :
  forallb P (map Z.of_nat (List.seq 0 n)) = true ->
  forall z, 0 <= z < Z.of_nat n -> P z = true.
Proof.
  rewrite forallb_forall. intros H z Hz. apply H.
  apply in_map_iff. exists (Z.to_nat z). split; [lia | apply in_seq; lia].
Qed.

(** The three bytes a quad decodes to. *)
Lemma quad_first (a h : Z) :
  0 <= a < 256 -> 0 <= h < 16 ->
  Z.lor (Z.shiftl (a / 4) 2) (Z.shiftr (a mod 4 * 16 + h) 4) = a
  /\ Z.land (a mod 4 * 16 + h) 15 = h.
Proof.
  intros Ha Hh.
  assert (forallb (fun a => forallb (fun h =>
            (Z.lor (Z.shiftl (a / 4) 2) (Z.shiftr (a mod 4 * 16 + h) 4) =? a)
            && (Z.land (a mod 4 * 16 + h) 15 =? h))
            (map Z.of_nat (List.seq 0 16))) (map Z.of_nat (List.seq 0 256)) = true) as H
    by (vm_compute; reflexivity).
  pose proof (below_forallb _ _ (below_forallb _ _ H a Ha) h Hh) as Hah.
  cbv beta in Hah. apply andb_prop in Hah as [H1 H2].
  split; apply Z.eqb_eq; assumption.
Qed.

Lemma quad_second (b q : Z) :
  0 <= b < 256 -> 0 <= q < 4 ->
  Z.lor (Z.shiftl (b / 16) 4) (Z.shiftr (b mod 16 * 4 + q) 2) = b
  /\ Z.land (b mod 16 * 4 + q) 3 = q.
Proof.
  intros Hb Hq.
  assert (forallb (fun b => forallb (fun q =>
            (Z.lor (Z.shiftl (b / 16) 4) (Z.shiftr (b mod 16 * 4 + q) 2) =? b)
            && (Z.land (b mod 16 * 4 + q) 3 =? q))
            (map Z.of_nat (List.seq 0 4))) (map Z.of_nat (List.seq 0 256)) = true) as H
    by (vm_compute; reflexivity).
  pose proof (below_forallb _ _ (below_forallb _ _ H b Hb) q Hq) as Hbq.
  cbv beta in Hbq. apply andb_prop in Hbq as [H1 H2].
  split; apply Z.eqb_eq; assumption.
Qed.

Lemma quad_third (c : Z) :
  0 <= c < 256 -> Z.lor (Z.shiftl (c / 64) 6) (c mod 64) = c.
Proof.
  intros Hc.
  assert (forallb (fun c => Z.lor (Z.shiftl (c / 64) 6) (c mod 64) =? c)
            (map Z.of_nat (List.seq 0 256)) = true) as H
    by (vm_compute; reflexivity).
  apply Z.eqb_eq. exact (below_forallb _ _ H c Hc).
Qed.

(** One character of the alphabet, read by the decoder. *)
Lemma a2b_base64_char (v : Z) (rest : bytes) quad_pos leftchar pads out :
  0 <= v < 64 ->
  a2b_base64 (b64_char v :: rest) quad_pos leftchar pads out =
  match quad_pos with
  | 0%nat => a2b_base64 rest 1 v 0 out
  | 1%nat =>
      a2b_base64 rest 2 (Z.land v 15) 0
        (byte_of_Z (Z.lor (Z.shiftl leftchar 2) (Z.shiftr v 4)) :: out)
  | 2%nat =>
      a2b_base64 rest 3 (Z.land v 3) 0
        (byte_of_Z (Z.lor (Z.shiftl leftchar 4) (Z.shiftr v 2)) :: out)
  | _ =>
      a2b_base64 rest 0 0 0 (byte_of_Z (Z.lor (Z.shiftl leftchar 6) v) :: out)
  end.
Proof.
  intros Hv. destruct (b64_char_value v Hv) as [Hpad Hval].
  cbn [a2b_base64]. rewrite Hpad, Hval. reflexivity.
Qed.

Lemma a2b_base64_b64encode (s : bytes) :
  forall out, a2b_base64 (b64encode s) 0 0 0 out = Ok (rev out ++ s).
Proof.
  enough (forall n (s : bytes), (List.length s <= n)%nat ->
            forall out, a2b_base64 (b64encode s) 0 0 0 out = Ok (rev out ++ s)) as H
    by (apply (H (List.length s)); lia).
  clear. induction n as [|n IH]; intros [|a [|b [|c rest]]] Hn out;
    cbn [List.length] in Hn; try lia;
    try (cbn; rewrite app_nil_r; reflexivity).
  - (* one byte and two pads *)
    pose proof (byte_val_range a) as Ha.
    cbn [b64encode].
    rewrite !a2b_base64_char by (try apply Z.div_pos; Z.div_mod_to_equations; lia).
    destruct (quad_first (byte_val a) 0) as [H1 _]; [lia | lia |].
    rewrite Z.add_0_r in H1. rewrite H1, byte_of_Z_val.
    cbn. rewrite <- ?app_assoc. reflexivity.
  - (* two bytes and one pad *)
    pose proof (byte_val_range a) as Ha. pose proof (byte_val_range b) as Hb.
    cbn [b64encode].
    rewrite !a2b_base64_char by (Z.div_mod_to_equations; lia).
    destruct (quad_first (byte_val a) (byte_val b / 16)) as [H1 H1'];
      [lia | Z.div_mod_to_equations; lia |].
    destruct (quad_second (byte_val b) 0) as [H2 _]; [lia | lia |].
    rewrite Z.add_0_r in H2.
    rewrite H1, H1', H2, !byte_of_Z_val.
    cbn. rewrite <- ?app_assoc. reflexivity.
  - (* a full quad *)
    pose proof (byte_val_range a) as Ha. pose proof (byte_val_range b) as Hb.
    pose proof (byte_val_range c) as Hc.
    cbn [b64encode].
    rewrite !a2b_base64_char by (Z.div_mod_to_equations; lia).
    destruct (quad_first (byte_val a) (byte_val b / 16)) as [H1 H1'];
      [lia | Z.div_mod_to_equations; lia |].
    destruct (quad_second (byte_val b) (byte_val c / 64)) as [H2 H2'];
      [lia | Z.div_mod_to_equations; lia |].
    pose proof (quad_third (byte_val c) Hc) as H3.
    rewrite H1, H1', H2, H2', H3, !byte_of_Z_val.
    rewrite IH by (cbn [List.length] in *; lia).
    cbn [rev]. rewrite <- !app_assoc. reflexivity.
Qed.

(** X7.  For every version that is not legacy the identifier rule inverts
    [base64.b64encode]: the base64 text of any bytes, padded or not, decodes
    to those bytes. *)
Theorem ConvertToBinaryIdentifier_base64_round_trip (bs : bytes) (version : Z) :
  legacy_version version = false ->
  ConvertToBinaryIdentifier (b64encode bs) version = Ok bs.
Proof.
  intros Hv. unfold ConvertToBinaryIdentifier. unfold legacy_version in Hv.
  rewrite Hv. unfold b64decode.
  destruct (version =? KeyCredentialVersion.Version2); apply (a2b_base64_b64encode bs []).
Qed.

Lemma ConvertToBinaryIdentifier_base64_round_trip_witness :
  ConvertToBinaryIdentifier (b64encode [x00; xff; x10; x7f]) 512 = Ok [x00; xff; x10; x7f].
Proof.
  apply ConvertToBinaryIdentifier_base64_round_trip. reflexivity.
Defined.

(** ** Further properties of [DN_binary_KeyCredentialLink] *)

Section MoreKeyCredentialLinkProperties.

Context {clock : Clock}.

Lemma ConvertFromBinaryTime_outcome (binaryTime : bytes) (source version : Z) :
  snd (ConvertFromBinaryTime binaryTime source version)
  = (timeStamp <- unpack_le 8 binaryTime ;; datetime_1601_plus timeStamp)
  /\ fst (ConvertFromBinaryTime binaryTime source version)
     = (if Nat.eqb (List.length binaryTime) 8
           && negb (legacy_version version) && negb (source =? KeySource.AD)
        then [not_fully_supported] else []).
Proof.
  unfold ConvertFromBinaryTime, unpack_le, legacy_version.
  destruct (Nat.eqb (List.length binaryTime) 8); cbn [Py.bind andb fst snd];
    [|split; reflexivity].
  destruct (version =? KeyCredentialVersion.Version0); [split; reflexivity|].
  destruct (version =? KeyCredentialVersion.Version1); [split; reflexivity|].
  destruct (version =? KeyCredentialVersion.Version2);
    destruct (source =? KeySource.AD); split; reflexivity.
Qed.

(** X8.  [ConvertFromBinaryTime] raises [struct.error] unless it is given
    exactly eight bytes.  On eight bytes every branch evaluates the same
    expression, the date arithmetic of the interpreter on the little-endian
    value of the eight bytes, so that the outcome, a date or the exception of
    that expression, depends neither on the source nor on the version.
    Source and version only decide whether the warning is printed: for eight
    bytes, a version that is not legacy and a source that is not AD. *)
Theorem ConvertFromBinaryTime_uniform (binaryTime : bytes) (source version : Z) :
  snd (ConvertFromBinaryTime binaryTime source version)
  = (if Nat.eqb (List.length binaryTime) 8
     then datetime_1601_plus (le_int binaryTime) else Raise struct_error)
  /\ fst (ConvertFromBinaryTime binaryTime source version)
     = (if Nat.eqb (List.length binaryTime) 8
           && negb (legacy_version version) && negb (source =? KeySource.AD)
        then [not_fully_supported] else []).
Proof.
  destruct (ConvertFromBinaryTime_outcome binaryTime source version) as (Hs & Hf).
  split; [|exact Hf]. rewrite Hs. unfold unpack_le.
  destruct (Nat.eqb (List.length binaryTime) 8); reflexivity.
Qed.

Lemma nth_error_in_range {A} (l : list A) n x :
  nth_error l n = Some x -> (n < List.length l)%nat.
Proof.
  intros H. apply nth_error_Some. rewrite H. discriminate.
Qed.

(** X9.  A value with fewer than four fields between colons makes the
    constructor raise before any record is read; with fewer than three
    fields the exception is [IndexError]. *)
Theorem constructor_missing_fields (raw_data : bytes) (text : string) :
  decode_utf8 raw_data = Ok text ->
  (List.length (split_colon text) < 4)%nat ->
  fst (DN_binary_KeyCredentialLink raw_data) = []
  /\ raises (snd (DN_binary_KeyCredentialLink raw_data))
  /\ ((List.length (split_colon text) < 3)%nat ->
      snd (DN_binary_KeyCredentialLink raw_data) = Raise IndexError).
Proof.
  intros Htext Hlen. unfold DN_binary_KeyCredentialLink. rewrite Htext.
  assert (index (split_colon text) 3 = Raise IndexError) as H3.
  { unfold index. destruct (nth_error (split_colon text) 3) eqn:E; [|reflexivity].
    apply nth_error_in_range in E. lia. }
  rewrite H3.
  destruct (field <- index (split_colon text) 2;; unhexlify_str field) as [b|e] eqn:E;
    cbn [fst snd].
  - split; [reflexivity|]. split; [eexists; reflexivity|]. intros Hlt. exfalso.
    unfold index in E. destruct (nth_error (split_colon text) 2) eqn:E2; [|discriminate].
    apply nth_error_in_range in E2. lia.
  - split; [reflexivity|]. split; [eexists; reflexivity|]. intros Hlt.
    unfold index in E. destruct (nth_error (split_colon text) 2) eqn:E2.
    + apply nth_error_in_range in E2. lia.
    + cbn in E. congruence.
Qed.

Lemma dict_set_keys_NoDup (d : dict) k v :
  NoDup (map fst d) -> NoDup (map fst (dict_set d k v)).
Proof.
  assert (forall k', In k' (map fst (dict_set d k v)) -> k' = k \/ In k' (map fst d)) as Hin.
  { induction d as [|[k0 v0] d IH]; cbn [dict_set map fst]; intros k'.
    - intros [<-|[]]. left. reflexivity.
    - destruct (String.eqb_spec k0 k) as [->|Hne]; cbn [map fst In].
      + intros [<-|H]; [left; reflexivity | right; right; exact H].
      + intros [<-|H]; [right; left; reflexivity|].
        destruct (IH _ H) as [->|H']; [left; reflexivity | right; right; exact H']. }
  clear Hin.
  induction d as [|[k0 v0] d IH]; cbn [dict_set map fst]; intros Hd.
  - constructor; [intros [] | constructor].
  - inversion Hd as [|? ? Hnotin Hd']; subst.
    destruct (String.eqb_spec k0 k) as [->|Hne]; cbn [map fst].
    + constructor; assumption.
    + constructor; [|apply IH; exact Hd'].
      intros H. apply Hnotin.
      clear - H Hne. induction d as [|[k1 v1] d IH]; cbn [dict_set map fst In] in *.
      * destruct H as [H|[]]. congruence.
      * destruct (String.eqb_spec k1 k) as [->|Hne']; cbn [map fst In] in H.
        -- destruct H as [H|H]; [congruence | right; exact H].
        -- destruct H as [H|H]; [left; exact H | right; apply IH; exact H].
Qed.

Lemma dict_set_keeps_head (d : dict) k0 v0 k v :
  k0 <> k -> exists tail, dict_set ((k0, v0) :: d) k v = (k0, v0) :: tail.
Proof.
  intros Hne. cbn [dict_set]. destruct (String.eqb_spec k0 k); [contradiction|].
  eexists. reflexivity.
Qed.

(** What one record leaves as it is. *)
Lemma parse_row_invariants self row printed self' v tail :
  parse_row self row = (printed, Ok self') ->
  parsed_data self = ("version", v) :: tail ->
  NoDup (map fst (parsed_data self)) ->
  version self' = version self
  /\ structure_dn self' = structure_dn self
  /\ (exists tail', parsed_data self' = ("version", v) :: tail')
  /\ NoDup (map fst (parsed_data self')).
Proof.
  intros Hrow Hhead Hnodup. revert Hrow.
  unfold parse_row, timestamp_row, pure_row.
  repeat match goal with
         | |- context [if ?x =? ?y then _ else _] => destruct (Z.eqb_spec x y)
         end.
  all: try (destruct (value row) as [|? [|? ?]]).
  all: try (destruct (get_source self);
            [destruct (ConvertFromBinaryTime _ _ _) as [? []]|]).
  all: unfold Py.bind;
    repeat match goal with
           | |- context [match ?e with Ok _ => _ | Raise _ => _ end] => destruct e
           end.
  all: intros [= _ <-] || intros [=].
  all: cbn [set_parsed set_source version structure_dn parsed_data].
  all: repeat split; try (eexists; exact Hhead); try exact Hnodup;
    try (apply dict_set_keys_NoDup; exact Hnodup).
  all: rewrite Hhead; apply dict_set_keeps_head; discriminate.
Qed.

Lemma parse_row_prints self row :
  Forall (fun line => line = not_fully_supported) (fst (parse_row self row)).
Proof.
  unfold parse_row, timestamp_row, pure_row.
  repeat match goal with
         | |- context [if ?x =? ?y then _ else _] => destruct (Z.eqb_spec x y)
         end.
  all: try (cbn [fst]; constructor; fail).
  all: try (destruct (value row) as [|? [|? ?]]; cbn [fst]; constructor; fail).
  all: destruct (get_source self); [|constructor].
  all: pose proof (ConvertFromBinaryTime_outcome (value row) a (version self)) as [_ Hp].
  all: destruct (ConvertFromBinaryTime (value row) a (version self)) as [p r].
  all: cbn [fst snd] in *; subst p.
  all: match goal with |- context [if ?c then _ else _] => destruct c end.
  all: repeat constructor.
Qed.

Lemma parse_rows_invariants data : forall self printed self' v tail,
  parse_rows self data = (printed, Ok self') ->
  parsed_data self = ("version", v) :: tail ->
  NoDup (map fst (parsed_data self)) ->
  version self' = version self
  /\ structure_dn self' = structure_dn self
  /\ (exists tail', parsed_data self' = ("version", v) :: tail')
  /\ NoDup (map fst (parsed_data self'))
  /\ Forall (fun line => line = not_fully_supported) printed.
Proof.
  induction data as [|row rest IH]; intros self printed self' v tail; cbn [parse_rows].
  - intros [= <- <-] Hhead Hnodup. repeat split; try assumption; [eexists; eassumption | constructor].
  - pose proof (parse_row_prints self row) as Hp.
    destruct (parse_row self row) as [p [self1|e]] eqn:Hrow; [|discriminate].
    destruct (parse_rows self1 rest) as [p' r] eqn:Hrest.
    intros [= <- ->] Hhead Hnodup.
    destruct (parse_row_invariants _ _ _ _ _ _ Hrow Hhead Hnodup)
      as (Hv & Hdn & (tail1 & Hhead1) & Hnodup1).
    destruct (IH _ _ _ _ _ Hrest Hhead1 Hnodup1) as (Hv' & Hdn' & Hhead' & Hnodup' & Hp').
    repeat split; try congruence; try assumption.
    apply Forall_app. split; assumption.
Qed.

(** X10.  When the constructor returns: [parsed_data] starts with the
    version, which no record overwrites; the version is a 32-bit value; the
    keys of [parsed_data] are pairwise distinct; the DN is the fourth field
    of the value; and nothing is printed but the warning. *)
Theorem constructor_invariants (raw_data : bytes) printed attr :
  DN_binary_KeyCredentialLink raw_data = (printed, Ok attr) ->
  (exists tail, parsed_data attr = ("version", VInt (version attr)) :: tail)
  /\ 0 <= version attr < 2 ^ 32
  /\ NoDup (map fst (parsed_data attr))
  /\ (exists text, decode_utf8 raw_data = Ok text
                   /\ index (split_colon text) 3 = Ok (structure_dn attr))
  /\ Forall (fun line => line = not_fully_supported) printed.
Proof.
  unfold DN_binary_KeyCredentialLink.
  destruct (decode_utf8 raw_data) as [text|]; [|discriminate].
  destruct (field <- index (split_colon text) 2;; unhexlify_str field) as [bd|];
    [|discriminate].
  destruct (index (split_colon text) 3) as [dn0|] eqn:Hdn; [|discriminate].
  unfold parse_binary_data, read, unpack_le.
  destruct (Nat.eqb (List.length (firstn 4 bd)) 4) eqn:Hlen; [|discriminate].
  destruct (read_entries (skipn 4 bd)) as [data|]; [|discriminate].
  intros Hrows.
  destruct (parse_rows_invariants _ _ _ _ _ _ Hrows eq_refl) as (Hv & Hd & (t & Ht) & Hn & Hp).
  { cbn. constructor; [intros [] | constructor]. }
  cbn [version structure_dn] in Hv, Hd.
  pose proof (le_int_bound (firstn 4 bd)) as Hb.
  apply Nat.eqb_eq in Hlen. rewrite Hlen in Hb.
  repeat split; try assumption.
  - exists t. rewrite Hv. exact Ht.
  - rewrite Hv. lia.
  - rewrite Hv. change (256 ^ Z.of_nat 4) with (2 ^ 32) in Hb. lia.
  - exists text. split; [reflexivity|]. rewrite Hd. exact Hdn.
Qed.

(** X11.  Records with the hash tag or with a tag outside 1..9 change
    nothing: decoding the records without them gives the same outcome and
    the same printed lines. *)
Theorem uninterpreted_rows_are_ignored (data : list Row) :
  forall self, parse_rows self (filter interpreted data) = parse_rows self data.
Proof.
  induction data as [|row rest IH]; intros self; [reflexivity|].
  cbn [filter]. destruct (interpreted row) eqn:Hrow.
  - cbn [parse_rows]. destruct (parse_row self row) as [p [self'|e]]; [|reflexivity].
    rewrite IH. reflexivity.
  - rewrite IH. cbn [parse_rows].
    assert (parse_row self row = ([], Ok self)) as ->.
    { unfold interpreted in Hrow. unfold parse_row, pure_row.
      unfold KeyCredentialEntryType.KeyID, KeyCredentialEntryType.KeyHash,
        KeyCredentialEntryType.KeyMaterial, KeyCredentialEntryType.KeyUsage,
        KeyCredentialEntryType.KeySource, KeyCredentialEntryType.DevideId,
        KeyCredentialEntryType.CustomKeyInformation,
        KeyCredentialEntryType.KeyApproximateLastLogonTimeStamp,
        KeyCredentialEntryType.KeyCreationTime in *.
      destruct (Z.eqb_spec (entryType row) 2) as [->|H2]; [reflexivity|].
      repeat match goal with
             | |- context [if ?x =? ?y then _ else _] =>
                 destruct (Z.eqb_spec x y); [cbn in Hrow; lia|]
             end.
      reflexivity. }
    destruct (parse_rows self rest) as [p r]. reflexivity.
Qed.

(** X12.  When the records are decoded, [self.source] is the first byte of
    the last KeySource record, and stays unset when there is none. *)
Theorem source_is_last_KeySource (data : list Row) :
  forall self printed self',
    parse_rows self data = (printed, Ok self') ->
    source self' = last_source (source self) data.
Proof.
  induction data as [|row rest IH]; intros self printed self'; cbn [parse_rows last_source].
  - intros [= _ <-]. reflexivity.
  - destruct (parse_row self row) as [p [self1|e]] eqn:Hrow; [|discriminate].
    destruct (parse_rows self1 rest) as [p' r] eqn:Hrest.
    intros [= _ ->]. rewrite (IH _ _ _ Hrest).
    destruct (Z.eqb_spec (entryType row) KeyCredentialEntryType.KeySource) as [Hty|Hty].
    + revert Hrow. unfold parse_row, pure_row. rewrite Hty. cbn [Z.eqb Pos.eqb].
      destruct (value row) as [|b v]; cbn; [discriminate|].
      intros [= _ <-]. reflexivity.
    + rewrite (parse_row_keeps_source _ _ _ _ Hty Hrow). reflexivity.
Qed.

End MoreKeyCredentialLinkProperties.

(** The same on the test bench. *)

Lemma constructor_missing_fields_witness :
  fst (@DN_binary_KeyCredentialLink ticks_clock value_two_fields) = []
  /\ raises (snd (@DN_binary_KeyCredentialLink ticks_clock value_two_fields))
  /\ snd (@DN_binary_KeyCredentialLink ticks_clock value_two_fields) = Raise IndexError.
Proof.
  destruct (@constructor_missing_fields ticks_clock value_two_fields "B:8" eq_refl)
    as (H1 & H2 & H3).
  - cbn. lia.
  - split; [exact H1|]. split; [exact H2|]. apply H3. cbn. lia.
Defined.

Lemma constructor_invariants_witness :
  (exists tail, [("version", VInt 512); ("KeySource", VInt 0);
                 ("KeyCreationTime", @VDatetime ticks_clock 0)]
                = ("version", VInt 512) :: tail)
  /\ 0 <= 512 < 2 ^ 32
  /\ NoDup ["version"; "KeySource"; "KeyCreationTime"]
  /\ (exists text, decode_utf8 value_source_first = Ok text
                   /\ index (split_colon text) 3 = Ok dn_ws01)
  /\ Forall (fun line => line = not_fully_supported) [].
Proof.
  exact (@constructor_invariants ticks_clock value_source_first [] _ eq_refl).
Defined.

Lemma source_is_last_KeySource_witness :
  Some 1 = last_source None
             [{| entryType := 5; value := [x00] |}; {| entryType := 3; value := [] |};
              {| entryType := 5; value := [x01; x07] |}].
Proof.
  exact (@source_is_last_KeySource ticks_clock
           [{| entryType := 5; value := [x00] |}; {| entryType := 3; value := [] |};
            {| entryType := 5; value := [x01; x07] |}]
           {| structure_dn := ""; version := 512; parsed_data := []; source := None |}
           _ _ eq_refl).
Defined.


(** ** Further properties of [ShadowCredentials] *)

Section MoreShadowCredentialsProperties.

Context {clock : Clock} {lt : ldaptypes} {server : Server}.
Variable globals : Globals.

Lemma readonly_sends {A} (c : Prog A) : readonly c -> sends 0 c.
Proof.
  intros Hc st. exists []. rewrite app_nil_r.
  split; [apply readonly_modifications; exact Hc | split; [cbn; lia | constructor]].
Qed.

Lemma sends_weaken {A} n m (c : Prog A) : sends n c -> (n <= m)%nat -> sends m c.
Proof.
  intros Hc Hnm st. destruct (Hc st) as (l & Hl & Hlen & Hall).
  exists l. repeat split; try assumption. lia.
Qed.

Lemma sends_seq {A B} n m (c : Prog A) (k : A -> Prog B) :
  sends n c -> (forall a, sends m (k a)) -> sends (n + m) (seq c k).
Proof.
  intros Hc Hk st. destruct (Hc st) as (l1 & Hl1 & Hlen1 & Hall1).
  unfold seq. destruct (c st) as [[a|e] st']; cbn [snd] in *.
  - destruct (Hk a st') as (l2 & Hl2 & Hlen2 & Hall2).
    exists (l1 ++ l2). rewrite Hl2, Hl1, app_assoc, length_app.
    repeat split; [lia | apply Forall_app; split; assumption].
  - exists l1. repeat split; try assumption. lia.
Qed.

Lemma sends_ldap_modify target values : sends 1 (ldap_modify target values).
Proof.
  intros st. exists [replace_request target values].
  repeat split; [cbn; lia | repeat constructor].
Qed.

Lemma sends_set_DN_delegate_to target_dn : sends 0 (set_DN_delegate_to target_dn).
Proof.
  intros st. exists []. cbn. rewrite app_nil_r. repeat split; [lia | constructor].
Qed.

Ltac sends_nothing :=
  apply readonly_sends;
  first [ apply readonly_set_delegate_from
        | apply readonly_set_SID_delegate_from
        | apply readonly_get_delegate_to
        | apply readonly_get_user_info
        | apply readonly_get_keycredentiallink
        | apply readonly_unpack_pair
        | apply readonly_report_result
        | apply readonly_global
        | apply readonly_log
        | apply readonly_ret ].

Ltac sends_steps :=
  repeat match goal with
         | |- sends _ (seq (ldap_modify _ _) _) =>
             apply (sends_seq 1 0); [apply sends_ldap_modify | intro]
         | |- sends _ (seq (set_DN_delegate_to _) _) =>
             apply (sends_seq 0); [apply sends_set_DN_delegate_to | intro]
         | |- sends ?n (seq (if ?c then _ else _) _) =>
             apply (sends_seq n 0); [destruct c | intro]
         | |- sends _ (seq _ _) => apply (sends_seq 0); [sends_nothing | intro]
         | |- sends _ (match ?x with Some _ => _ | None => _ end) => destruct x
         | |- sends _ (let '(_, _) := ?p in _) => destruct p
         | |- sends (S _) _ => apply (sends_weaken 0); [|lia]
         | |- sends 0 _ => sends_nothing
         end.

(** X13.  Whatever the directory answers and however the action ends, [read]
    sends nothing and each of [write], [remove] and [flush] sends at most
    one request, which replaces msDS-AllowedToActOnBehalfOfOtherIdentity;
    requests sent earlier are left in place. *)
Theorem actions_send_at_most_one_request (delegate_from : string) :
  sends 0 (read_action globals)
  /\ sends 1 (write globals delegate_from)
  /\ sends 1 (remove globals delegate_from)
  /\ sends 1 (flush globals).
Proof.
  repeat split.
  - unfold read_action. sends_steps.
  - unfold write. sends_steps.
  - unfold remove. sends_steps.
  - unfold flush. sends_steps.
Qed.

Lemma get_user_info_run samname st :
  get_user_info samname st =
  match search_sAMAccountName (modifications st) samname with
  | e :: _ => (Ok (Some (entry_dn e, objectSid e)), st)
  | [] => (Ok None, add_logs [(ERROR, ("User not found in LDAP: " ++ samname)%string)] st)
  end.
Proof.
  unfold get_user_info, seq, ldap_search_sAMAccountName, except_IndexError, lift.
  destruct (search_sAMAccountName (modifications st) samname); reflexivity.
Qed.

Lemma get_user_info_found samname st e es :
  search_sAMAccountName (modifications st) samname = e :: es ->
  fst (get_user_info samname st) = Ok (Some (entry_dn e, objectSid e)).
Proof. intros H. rewrite get_user_info_run, H. reflexivity. Qed.

Lemma get_user_info_not_found samname st :
  search_sAMAccountName (modifications st) samname = [] ->
  fst (get_user_info samname st) = Ok None.
Proof. intros H. rewrite get_user_info_run, H. reflexivity. Qed.

(** One step of a method whose outcome is known. *)
Ltac run_known Hc Ha :=
  match goal with
  | Hv : same_view ?st ?st0 |- context [seq ?c ?k ?st] =>
      let st' := fresh "st" in
      let Hrun := fresh "Hrun" in
      let Hv' := fresh "Hv" in
      let l := fresh "l" in
      let Hl := fresh "Hl" in
      destruct (readonly_run c k st0 st _ Hc Hv Ha) as (st' & Hrun & Hv' & l & Hl);
      rewrite Hrun; clear Hrun; cbv beta iota; clear Hv Hl l
  end.

Lemma ends_with_error msg st st0 :
  same_view st st0 ->
  fst (log ERROR msg st) = Ok tt
  /\ modifications (snd (log ERROR msg st)) = modifications st0
  /\ In (ERROR, msg) (logs (snd (log ERROR msg st))).
Proof.
  intros (Hm & _ & _). split; [reflexivity|]. split; [exact Hm|].
  cbn. apply in_or_app. right. left. reflexivity.
Qed.

(** X14.  When the account to add or remove is not found, [write] and
    [remove] log "User to escalate does not exist!", send nothing and
    return. *)
Theorem unresolved_actor_aborts st d :
  search_sAMAccountName (modifications st) d = [] ->
  (fst (write globals d st) = Ok tt
   /\ modifications (snd (write globals d st)) = modifications st
   /\ In (ERROR, "User to escalate does not exist!") (logs (snd (write globals d st))))
  /\ (fst (remove globals d st) = Ok tt
      /\ modifications (snd (remove globals d st)) = modifications st
      /\ In (ERROR, "User to escalate does not exist!") (logs (snd (remove globals d st)))).
Proof.
  intros Hd. apply get_user_info_not_found in Hd.
  split.
  - pose proof (same_view_refl st) as Hv. unfold write.
    run_known (readonly_set_delegate_from d)
      (eq_refl : fst (set_delegate_from d st) = Ok tt).
    run_known (readonly_get_user_info d) Hd.
    apply ends_with_error. assumption.
  - pose proof (same_view_refl st) as Hv. unfold remove.
    run_known (readonly_set_delegate_from d)
      (eq_refl : fst (set_delegate_from d st) = Ok tt).
    run_known (readonly_get_user_info d) Hd.
    apply ends_with_error. assumption.
Qed.

(** X15.  When the target computer is not found, [read] and [flush], and
    [write] and [remove] once their account is found, log "Computer to
    modify does not exist! (wrong domain?)", send nothing and return. *)
Theorem unresolved_target_aborts st :
  search_sAMAccountName (modifications st) (delegate_to st) = [] ->
  (fst (read_action globals st) = Ok tt
   /\ modifications (snd (read_action globals st)) = modifications st
   /\ In (ERROR, computer_missing) (logs (snd (read_action globals st))))
  /\ (fst (flush globals st) = Ok tt
      /\ modifications (snd (flush globals st)) = modifications st
      /\ In (ERROR, computer_missing) (logs (snd (flush globals st))))
  /\ (forall d,
        search_sAMAccountName (modifications st) d <> [] ->
        (fst (write globals d st) = Ok tt
         /\ modifications (snd (write globals d st)) = modifications st
         /\ In (ERROR, computer_missing) (logs (snd (write globals d st))))
        /\ (fst (remove globals d st) = Ok tt
            /\ modifications (snd (remove globals d st)) = modifications st
            /\ In (ERROR, computer_missing) (logs (snd (remove globals d st))))).
Proof.
  intros Ht. apply get_user_info_not_found in Ht.
  split; [|split].
  - pose proof (same_view_refl st) as Hv. unfold read_action.
    run_known readonly_get_delegate_to
      (eq_refl : fst (get delegate_to st) = Ok (delegate_to st)).
    run_known (readonly_get_user_info (delegate_to st)) Ht.
    apply ends_with_error. assumption.
  - pose proof (same_view_refl st) as Hv. unfold flush.
    run_known readonly_get_delegate_to
      (eq_refl : fst (get delegate_to st) = Ok (delegate_to st)).
    run_known (readonly_get_user_info (delegate_to st)) Ht.
    apply ends_with_error. assumption.
  - intros d Hd.
    destruct (search_sAMAccountName (modifications st) d) as [|e es] eqn:Hs; [congruence|].
    clear Hd. apply get_user_info_found in Hs.
    split.
    + pose proof (same_view_refl st) as Hv. unfold write.
      run_known (readonly_set_delegate_from d)
        (eq_refl : fst (set_delegate_from d st) = Ok tt).
      run_known (readonly_get_user_info d) Hs.
      run_known (readonly_set_SID_delegate_from (objectSid e))
        (eq_refl : fst (set_SID_delegate_from (objectSid e) st) = Ok tt).
      run_known readonly_get_delegate_to
        (eq_refl : fst (get delegate_to st) = Ok (delegate_to st)).
      run_known (readonly_get_user_info (delegate_to st)) Ht.
      apply ends_with_error. assumption.
    + pose proof (same_view_refl st) as Hv. unfold remove.
      run_known (readonly_set_delegate_from d)
        (eq_refl : fst (set_delegate_from d st) = Ok tt).
      run_known (readonly_get_user_info d) Hs.
      run_known (readonly_set_SID_delegate_from (objectSid e))
        (eq_refl : fst (set_SID_delegate_from (objectSid e) st) = Ok tt).
      run_known readonly_get_delegate_to
        (eq_refl : fst (get delegate_to st) = Ok (delegate_to st)).
      run_known (readonly_get_user_info (delegate_to st)) Ht.
      apply ends_with_error. assumption.
Qed.

Lemma get_keycredentiallink_unqueried st :
  last_searchResEntry (search_base (modifications st) (DN_delegate_to st)) = None ->
  get_keycredentiallink globals st =
  (Ok None, add_logs [(ERROR, "Could not query target user properties")] st).
Proof.
  intros Hnone. unfold get_keycredentiallink, seq at 1, get. cbn [fst snd].
  unfold seq at 1, ldap_search_base. rewrite Hnone. reflexivity.
Qed.

Lemma raises_TypeError_unsent {B} (k : _ -> Prog B) st st0 :
  same_view st st0 ->
  fst (seq (unpack_pair (@None (SR_SECURITY_DESCRIPTOR_obj LDAP_SID * response_entry))) k st)
  = Raise TypeError
  /\ modifications
       (snd (seq (unpack_pair (@None (SR_SECURITY_DESCRIPTOR_obj LDAP_SID * response_entry)))
               k st))
     = modifications st0.
Proof.
  intros (Hm & _ & _). split; [reflexivity | exact Hm].
Qed.

(** X16.  When the search on the target returns no entry of type
    searchResEntry, the fetch logs "Could not query target user properties"
    and returns [None]: [read] returns, while [flush], [write] and [remove]
    raise [TypeError] at the unpacking of that result, before sending
    anything. *)
Theorem unqueried_target st t ts :
  search_sAMAccountName (modifications st) (delegate_to st) = t :: ts ->
  last_searchResEntry (search_base (modifications st) (Some (entry_dn t))) = None ->
  (fst (read_action globals st) = Ok tt
   /\ modifications (snd (read_action globals st)) = modifications st)
  /\ (fst (flush globals st) = Raise TypeError
      /\ modifications (snd (flush globals st)) = modifications st)
  /\ (forall d,
        search_sAMAccountName (modifications st) d <> [] ->
        (fst (write globals d st) = Raise TypeError
         /\ modifications (snd (write globals d st)) = modifications st)
        /\ (fst (remove globals d st) = Raise TypeError
            /\ modifications (snd (remove globals d st)) = modifications st)).
Proof.
  intros Ht Hnone. apply get_user_info_found in Ht.
  assert (fst (get_keycredentiallink globals (with_DN_delegate_to (entry_dn t) st)) = Ok None)
    as Hfetch by (rewrite get_keycredentiallink_unqueried; [reflexivity | exact Hnone]).
  split; [|split].
  - pose proof (same_view_refl st) as Hv. unfold read_action.
    run_known readonly_get_delegate_to
      (eq_refl : fst (get delegate_to st) = Ok (delegate_to st)).
    run_known (readonly_get_user_info (delegate_to st)) Ht.
    rewrite set_DN_delegate_to_run.
    match goal with Hv : same_view _ st |- _ =>
      apply (same_view_with_DN (entry_dn t)) in Hv end.
    run_known (readonly_get_keycredentiallink globals) Hfetch.
    match goal with Hv : same_view _ _ |- _ => destruct Hv as (Hm & _ & _) end.
    split; [reflexivity | exact Hm].
  - pose proof (same_view_refl st) as Hv. unfold flush.
    run_known readonly_get_delegate_to
      (eq_refl : fst (get delegate_to st) = Ok (delegate_to st)).
    run_known (readonly_get_user_info (delegate_to st)) Ht.
    rewrite set_DN_delegate_to_run.
    match goal with Hv : same_view _ st |- _ =>
      apply (same_view_with_DN (entry_dn t)) in Hv end.
    run_known (readonly_get_keycredentiallink globals) Hfetch.
    apply raises_TypeError_unsent with (st0 := with_DN_delegate_to (entry_dn t) st).
    assumption.
  - intros d Hd.
    destruct (search_sAMAccountName (modifications st) d) as [|e es] eqn:Hs; [congruence|].
    clear Hd. apply get_user_info_found in Hs.
    split.
    + pose proof (same_view_refl st) as Hv. unfold write.
      run_known (readonly_set_delegate_from d)
        (eq_refl : fst (set_delegate_from d st) = Ok tt).
      run_known (readonly_get_user_info d) Hs.
      run_known (readonly_set_SID_delegate_from (objectSid e))
        (eq_refl : fst (set_SID_delegate_from (objectSid e) st) = Ok tt).
      run_known readonly_get_delegate_to
        (eq_refl : fst (get delegate_to st) = Ok (delegate_to st)).
      run_known (readonly_get_user_info (delegate_to st)) Ht.
      rewrite set_DN_delegate_to_run.
      match goal with Hv : same_view _ st |- _ =>
        apply (same_view_with_DN (entry_dn t)) in Hv end.
      run_known (readonly_get_keycredentiallink globals) Hfetch.
      apply raises_TypeError_unsent with (st0 := with_DN_delegate_to (entry_dn t) st).
      assumption.
    + pose proof (same_view_refl st) as Hv. unfold remove.
      run_known (readonly_set_delegate_from d)
        (eq_refl : fst (set_delegate_from d st) = Ok tt).
      run_known (readonly_get_user_info d) Hs.
      run_known (readonly_set_SID_delegate_from (objectSid e))
        (eq_refl : fst (set_SID_delegate_from (objectSid e) st) = Ok tt).
      run_known readonly_get_delegate_to
        (eq_refl : fst (get delegate_to st) = Ok (delegate_to st)).
      run_known (readonly_get_user_info (delegate_to st)) Ht.
      rewrite set_DN_delegate_to_run.
      match goal with Hv : same_view _ st |- _ =>
        apply (same_view_with_DN (entry_dn t)) in Hv end.
      run_known (readonly_get_keycredentiallink globals) Hfetch.
      apply raises_TypeError_unsent with (st0 := with_DN_delegate_to (entry_dn t) st).
      assumption.
Qed.

(** The [try] block up to the two parsers. *)
Lemma get_keycredentiallink_try st targetuser raw rest :
  last_searchResEntry (search_base (modifications st) (DN_delegate_to st)) = Some targetuser ->
  raw_KeyCredentialLink targetuser = raw :: rest ->
  get_keycredentiallink globals st =
  seq (except_IndexError
         (seq (lift (snd (DN_binary_KeyCredentialLink raw)))
            (fun _ =>
               seq (lift (SR_SECURITY_DESCRIPTOR raw))
                 (fun sd =>
                    seq match Dacl_aces sd with
                        | [] => log INFO "Attribute msDS-KeyCredentialLink is empty"
                        | aces =>
                            seq (log INFO "Accounts allowed to act on behalf of other identity:")
                              (fun _ => list_aces aces)
                        end
                      (fun _ => ret sd))))
         (seq (log INFO "Attribute msDS-KeyCredentialLink is empty")
            (fun _ => global "create_empty_sd" (create_empty_sd globals))))
    (fun sd => ret (Some (sd, targetuser)))
    (snd (print (fst (DN_binary_KeyCredentialLink raw)) st)).
Proof.
  intros Htarget Hraw.
  unfold get_keycredentiallink, seq at 1, get. cbn [fst snd].
  unfold seq at 1, ldap_search_base. rewrite Htarget.
  unfold seq at 1 3, except_IndexError, seq at 1 3, lift.
  rewrite Hraw. cbn [index nth_error].
  destruct (DN_binary_KeyCredentialLink raw) as [printed attr]. cbn [fst snd].
  cbn [print]. unfold seq at 1. reflexivity.
Qed.

(** X17.  An [IndexError] raised inside the [try] block, by the constructor
    of [DN_binary_KeyCredentialLink] or by the descriptor parser, is taken
    for an absent attribute: "Attribute msDS-KeyCredentialLink is empty" is
    logged and [create_empty_sd] is evaluated. *)
Theorem IndexError_is_taken_for_absent st targetuser raw rest :
  last_searchResEntry (search_base (modifications st) (DN_delegate_to st)) = Some targetuser ->
  raw_KeyCredentialLink targetuser = raw :: rest ->
  snd (DN_binary_KeyCredentialLink raw) = Raise IndexError
  \/ ((exists attr, snd (DN_binary_KeyCredentialLink raw) = Ok attr)
      /\ SR_SECURITY_DESCRIPTOR raw = Raise IndexError) ->
  fst (get_keycredentiallink globals st) =
  match create_empty_sd globals with
  | Some sd => Ok (Some (sd, targetuser))
  | None => Raise (NameError "create_empty_sd")
  end
  /\ logs (snd (get_keycredentiallink globals st)) =
     logs st ++ [(INFO, "Attribute msDS-KeyCredentialLink is empty")].
Proof.
  intros Htarget Hraw Hcase.
  rewrite (get_keycredentiallink_try _ _ _ _ Htarget Hraw).
  unfold seq at 1, except_IndexError, seq at 1, lift.
  destruct Hcase as [Hdn | ((attr & Hdn) & Hsd)]; rewrite Hdn.
  - rewrite log_run. destruct (create_empty_sd globals); split; reflexivity.
  - unfold seq at 1. rewrite Hsd. rewrite log_run.
    destruct (create_empty_sd globals); split; reflexivity.
Qed.

(** X18.  Any other exception raised by the constructor of
    [DN_binary_KeyCredentialLink] or by the descriptor parser goes through
    [get_keycredentiallink] as it is, and nothing is logged. *)
Theorem decoder_exceptions_propagate st targetuser raw rest e :
  last_searchResEntry (search_base (modifications st) (DN_delegate_to st)) = Some targetuser ->
  raw_KeyCredentialLink targetuser = raw :: rest ->
  e <> IndexError ->
  snd (DN_binary_KeyCredentialLink raw) = Raise e
  \/ ((exists attr, snd (DN_binary_KeyCredentialLink raw) = Ok attr)
      /\ SR_SECURITY_DESCRIPTOR raw = Raise e) ->
  fst (get_keycredentiallink globals st) = Raise e
  /\ logs (snd (get_keycredentiallink globals st)) = logs st.
Proof.
  intros Htarget Hraw He Hcase.
  rewrite (get_keycredentiallink_try _ _ _ _ Htarget Hraw).
  unfold seq at 1, except_IndexError, seq at 1, lift.
  destruct Hcase as [Hdn | ((attr & Hdn) & Hsd)]; rewrite Hdn.
  - destruct e; try contradiction; split; reflexivity.
  - unfold seq at 1. rewrite Hsd. destruct e; try contradiction; split; reflexivity.
Qed.



Lemma fold_left_last_searchResEntry response acc :
  fold_left
    (fun targetuser entry =>
       if String.eqb (type entry) "searchResEntry" then Some entry else targetuser)
    response acc
  = match last_searchResEntry response with
    | Some e => Some e
    | None => acc
    end.
Proof.
  unfold last_searchResEntry. revert acc.
  induction response as [|entry rest IH] using rev_ind; intros acc; [reflexivity|].
  rewrite !fold_left_app. cbn [fold_left].
  destruct (String.eqb (type entry) "searchResEntry"); [reflexivity|].
  apply IH.
Qed.

(** X20.  The target is the last entry of type searchResEntry of the
    response: entries of other types are skipped, and there is no target
    exactly when the response has no such entry. *)
Theorem last_searchResEntry_is_last (response : list response_entry) :
  (last_searchResEntry response = None
   <-> forall entry, In entry response -> type entry <> "searchResEntry")
  /\ (forall pre entry post,
        response = pre ++ entry :: post ->
        type entry = "searchResEntry" ->
        (forall other, In other post -> type other <> "searchResEntry") ->
        last_searchResEntry response = Some entry).
Proof.
  assert (forall l, last_searchResEntry l = None
                    <-> forall entry, In entry l -> type entry <> "searchResEntry") as Hnone.
  { induction l as [|entry rest IH] using rev_ind.
    - split; [intros _ ? [] | reflexivity].
    - unfold last_searchResEntry in *. rewrite fold_left_app. cbn [fold_left].
      destruct (String.eqb_spec (type entry) "searchResEntry") as [Hty|Hty].
      + split; [discriminate|]. intros H. exfalso.
        apply (H entry); [apply in_or_app; right; left; reflexivity | exact Hty].
      + rewrite IH. split.
        * intros H entry' Hin. apply in_app_or in Hin as [Hin|[<-|[]]]; [apply H|]; assumption.
        * intros H entry' Hin. apply H. apply in_or_app. left. exact Hin. }
  split; [apply Hnone|].
  intros pre entry post -> Hty Hpost. apply Hnone in Hpost.
  unfold last_searchResEntry. rewrite fold_left_app. cbn [fold_left].
  apply String.eqb_eq in Hty. rewrite Hty.
  rewrite fold_left_last_searchResEntry, Hpost. reflexivity.
Qed.

(** X21.  The descriptor [remove] sends is the one fetched with its DACL
    filtered: the ACEs whose canonical SID is the SID to remove are gone, the
    others are kept in their order, and revision, control flags, owner,
    group and SACL are those fetched.  When no ACE matches, it is the
    descriptor fetched. *)
Theorem remove_sends_filtered_descriptor st d from_dn sid target_dn target_sid sd targetuser :
  fst (get_user_info d st) = Ok (Some (from_dn, sid)) ->
  fst (get_user_info (delegate_to st) st) = Ok (Some (target_dn, target_sid)) ->
  fst (get_keycredentiallink globals (with_DN_delegate_to target_dn st))
  = Ok (Some (sd, targetuser)) ->
  exists sd',
    modifications (snd (remove globals d st)) =
    modifications st ++ [replace_request (dn targetuser) [getData sd']]
    /\ Revision sd' = Revision sd /\ Control sd' = Control sd
    /\ OwnerSid sd' = OwnerSid sd /\ GroupSid sd' = GroupSid sd /\ Sacl sd' = Sacl sd
    /\ Dacl_aces sd' =
       filter (fun ace => negb (String.eqb sid (formatCanonical (Sid ace)))) (Dacl_aces sd)
    /\ ~ In sid (canonical_sids sd')
    /\ (~ In sid (canonical_sids sd) -> sd' = sd).
Proof.
  intros Hfrom Hto Hfetch.
  eexists. split; [eapply remove_writes; eassumption|].
  cbn [set_aces Revision Control OwnerSid GroupSid Sacl Dacl_aces].
  repeat split.
  - unfold canonical_sids. cbn [Dacl_aces]. rewrite in_map_iff.
    intros (ace & Hsid & Hin). apply filter_In in Hin as (_ & Hneq).
    rewrite Hsid, String.eqb_refl in Hneq. discriminate.
  - intros Hnot. destruct sd as [rev ctl own grp sacl aces]. unfold set_aces.
    cbn [Revision Control OwnerSid GroupSid Sacl Dacl_aces]. f_equal.
    unfold canonical_sids in Hnot. cbn [Dacl_aces] in Hnot.
    clear - Hnot. revert Hnot.
    induction aces as [|ace aces IH]; intros Hnot; [reflexivity|]. cbn [filter].
    destruct (String.eqb_spec sid (formatCanonical (Sid ace))) as [Heq|Hneq].
    + exfalso. apply Hnot. left. symmetry. exact Heq.
    + cbn [negb]. f_equal. apply IH. intros H. apply Hnot. right. exact H.
Qed.

End MoreShadowCredentialsProperties.

(** The same on the test bench. *)

Lemma unresolved_actor_aborts_witness :
  (fst (@write ticks_clock bench_ldaptypes (bench_server [value_svc] true)
          pywhisker_globals "nobody$" (init "ws01$")) = Ok tt
   /\ modifications
        (snd (@write ticks_clock bench_ldaptypes (bench_server [value_svc] true)
                pywhisker_globals "nobody$" (init "ws01$"))) = []
   /\ In (ERROR, "User to escalate does not exist!")
        (logs (snd (@write ticks_clock bench_ldaptypes (bench_server [value_svc] true)
                      pywhisker_globals "nobody$" (init "ws01$")))))
  /\ (fst (@remove ticks_clock bench_ldaptypes (bench_server [value_svc] true)
             pywhisker_globals "nobody$" (init "ws01$")) = Ok tt
      /\ modifications
           (snd (@remove ticks_clock bench_ldaptypes (bench_server [value_svc] true)
                   pywhisker_globals "nobody$" (init "ws01$"))) = []
      /\ In (ERROR, "User to escalate does not exist!")
           (logs (snd (@remove ticks_clock bench_ldaptypes (bench_server [value_svc] true)
                         pywhisker_globals "nobody$" (init "ws01$"))))).
Proof.
  exact (@unresolved_actor_aborts ticks_clock bench_ldaptypes (bench_server [value_svc] true)
           pywhisker_globals (init "ws01$") "nobody$" eq_refl).
Defined.

Lemma unresolved_target_aborts_witness :
  fst (@flush ticks_clock bench_ldaptypes (bench_server [value_svc] true)
         pywhisker_globals (init "nobody$")) = Ok tt
  /\ modifications
       (snd (@flush ticks_clock bench_ldaptypes (bench_server [value_svc] true)
               pywhisker_globals (init "nobody$"))) = []
  /\ In (ERROR, computer_missing)
       (logs (snd (@flush ticks_clock bench_ldaptypes (bench_server [value_svc] true)
                     pywhisker_globals (init "nobody$")))).
Proof.
  exact (proj1 (proj2
           (@unresolved_target_aborts ticks_clock bench_ldaptypes
              (bench_server [value_svc] true) pywhisker_globals (init "nobody$") eq_refl))).
Defined.

Lemma unqueried_target_witness :
  fst (@flush ticks_clock bench_ldaptypes (bench_server [value_svc] true)
         pywhisker_globals (init "svc$")) = Raise TypeError
  /\ modifications
       (snd (@flush ticks_clock bench_ldaptypes (bench_server [value_svc] true)
               pywhisker_globals (init "svc$"))) = [].
Proof.
  exact (proj1 (proj2
           (@unqueried_target ticks_clock bench_ldaptypes (bench_server [value_svc] true)
              pywhisker_globals (init "svc$")
              {| entry_dn := dn_svc; objectSid := sid_svc; samaccountname := "svc$" |} []
              eq_refl eq_refl))).
Defined.

Lemma IndexError_is_taken_for_absent_witness :
  fst (@get_keycredentiallink ticks_clock bench_ldaptypes
         (bench_server [value_two_fields] true) pywhisker_globals
         (with_DN_delegate_to dn_ws01 (init "ws01$")))
  = Raise (NameError "create_empty_sd")
  /\ logs (snd (@get_keycredentiallink ticks_clock bench_ldaptypes
                  (bench_server [value_two_fields] true) pywhisker_globals
                  (with_DN_delegate_to dn_ws01 (init "ws01$"))))
     = [(INFO, "Attribute msDS-KeyCredentialLink is empty")].
Proof.
  exact (@IndexError_is_taken_for_absent ticks_clock bench_ldaptypes
           (bench_server [value_two_fields] true) pywhisker_globals
           (with_DN_delegate_to dn_ws01 (init "ws01$"))
           {| type := "searchResEntry"; dn := dn_ws01;
              raw_KeyCredentialLink := [value_two_fields] |}
           value_two_fields [] eq_refl eq_refl (or_introl eq_refl)).
Defined.

Lemma decoder_exceptions_propagate_witness :
  fst (@get_keycredentiallink ticks_clock bench_ldaptypes
         (bench_server [value_timestamp_first] true) pywhisker_globals
         (with_DN_delegate_to dn_ws01 (init "ws01$")))
  = Raise (AttributeError "source")
  /\ logs (snd (@get_keycredentiallink ticks_clock bench_ldaptypes
                  (bench_server [value_timestamp_first] true) pywhisker_globals
                  (with_DN_delegate_to dn_ws01 (init "ws01$"))))
     = [].
Proof.
  refine (@decoder_exceptions_propagate ticks_clock bench_ldaptypes
            (bench_server [value_timestamp_first] true) pywhisker_globals
            (with_DN_delegate_to dn_ws01 (init "ws01$"))
            {| type := "searchResEntry"; dn := dn_ws01;
               raw_KeyCredentialLink := [value_timestamp_first] |}
            value_timestamp_first [] (AttributeError "source")
            eq_refl eq_refl _ (or_introl eq_refl)).
  discriminate.
Defined.


Lemma last_searchResEntry_is_last_witness :
  last_searchResEntry bench_response
  = Some {| type := "searchResEntry"; dn := dn_ws01; raw_KeyCredentialLink := [value_svc] |}.
Proof.
  refine (proj2 (last_searchResEntry_is_last bench_response)
            [{| type := "searchResEntry"; dn := dn_svc; raw_KeyCredentialLink := [] |}]
            _ [{| type := "searchResRef"; dn := ""; raw_KeyCredentialLink := [] |}]
            eq_refl eq_refl _).
  intros other [<-|[]]. discriminate.
Defined.

Lemma remove_sends_filtered_descriptor_witness :
  exists sd',
    modifications
      (snd (@remove ticks_clock bench_ldaptypes (bench_server [value_svc] true)
              pywhisker_globals "svc$" (init "ws01$")))
    = [replace_request dn_ws01 [@getData bench_ldaptypes sd']]
    /\ Revision sd' = 1 /\ Control sd' = 32772
    /\ OwnerSid sd' = Some "S-1-5-32-544" /\ GroupSid sd' = None /\ Sacl sd' = []
    /\ Dacl_aces sd' = []
    /\ ~ In sid_svc (@canonical_sids bench_ldaptypes sd')
    /\ (~ In sid_svc (@canonical_sids bench_ldaptypes (bench_sd [ace_svc])) ->
        sd' = bench_sd [ace_svc]).
Proof.
  exact (@remove_sends_filtered_descriptor ticks_clock bench_ldaptypes
           (bench_server [value_svc] true) pywhisker_globals (init "ws01$") "svc$"
           dn_svc sid_svc dn_ws01 "S-1-5-21-1004336348-1177238915-682003330-1103"
           (bench_sd [ace_svc])
           {| type := "searchResEntry"; dn := dn_ws01;
              raw_KeyCredentialLink := [value_svc] |}
           eq_refl eq_refl eq_refl).
Defined.


(** ** Properties of the command line and of the session *)

Lemma split_colon_not_nil (s : string) : split_colon s <> [].
Proof.
  destruct s as [|c rest]; cbn [split_colon]; [discriminate|].
  destruct (split_colon rest); [discriminate|].
  destruct (Ascii.eqb c ":"); discriminate.
Qed.

Lemma split_colon_length (s : string) : List.length (split_colon s) = S (colons s).
Proof.
  induction s as [|c rest IH]; [reflexivity|]. cbn [split_colon colons].
  pose proof (split_colon_not_nil rest) as Hne.
  destruct (split_colon rest) as [|cur more]; [contradiction|].
  destruct (Ascii.eqb c ":"); cbn [List.length] in *; lia.
Qed.

Lemma split_colon_join (s : string) : String.concat ":" (split_colon s) = s.
Proof.
  induction s as [|c rest IH]; [reflexivity|]. cbn [split_colon].
  pose proof (split_colon_not_nil rest) as Hne.
  destruct (split_colon rest) as [|cur more]; [contradiction|].
  destruct (Ascii.eqb_spec c ":") as [->|Hc].
  - change (String.concat ":" (EmptyString :: cur :: more))
      with (String ":" (String.concat ":" (cur :: more))).
    rewrite IH. reflexivity.
  - destruct more as [|next more'].
    + cbn [String.concat] in *. rewrite IH. reflexivity.
    + change (String.concat ":" (String c cur :: next :: more'))
        with (String c (String.concat ":" (cur :: next :: more'))).
      rewrite IH. reflexivity.
Qed.

Lemma split_colon_fields (s : string) : Forall (fun f => colons f = 0%nat) (split_colon s).
Proof.
  induction s as [|c rest IH]; [repeat constructor|]. cbn [split_colon].
  pose proof (split_colon_not_nil rest) as Hne.
  destruct (split_colon rest) as [|cur more]; [contradiction|].
  inversion IH as [|? ? Hcur Hmore]; subst.
  destruct (Ascii.eqb c ":") eqn:Hc.
  - constructor; [reflexivity | exact IH].
  - constructor; [|exact Hmore]. cbn [colons]. rewrite Hc. exact Hcur.
Qed.

Section CommandLineProperties.

Variable parse_credentials : string -> string * string * string.
Variable getpass : string -> string.

(** X22.  With [-hashes], [parse_identity] never prompts for a password.  It
    returns exactly when the argument holds one colon, and the two hashes are
    then the text before and after it; with no colon or several it raises
    [ValueError]. *)
Theorem parse_identity_hashes (args : Args) (h : string) :
  hashes args = Some h ->
  fst (fst (parse_credentials (identity args))) <> "" ->
  identity_prompts (parse_identity parse_credentials getpass args) = []
  /\ match identity_ending (parse_identity parse_credentials getpass args) with
     | Returns (_, (_, _, _, lmhash, nthash)) =>
         colons h = 1%nat /\ h = (lmhash ++ ":" ++ nthash)%string
         /\ colons lmhash = 0%nat /\ colons nthash = 0%nat
     | Raises e => e = ValueError /\ colons h <> 1%nat
     | Exits _ => False
     end.
Proof.
  intros Hh Hdomain. unfold parse_identity.
  destruct (parse_credentials (identity args)) as [[domain username] password].
  cbn [fst] in Hdomain. apply String.eqb_neq in Hdomain. rewrite Hdomain.
  rewrite Hh. cbn [is_None andb]. rewrite !andb_false_r. cbn [identity_prompts identity_ending].
  split; [reflexivity|].
  assert (hashes (if is_None (aesKey args) then args else set_k args) = Some h) as ->
    by (destruct (is_None (aesKey args)); exact Hh).
  pose proof (split_colon_length h) as Hlen.
  pose proof (split_colon_join h) as Hjoin.
  pose proof (split_colon_fields h) as Hfields.
  destruct (split_colon h) as [|lm [|nt [|x more]]]; cbn [List.length] in Hlen.
  - lia.
  - split; [reflexivity | lia].
  - apply Forall_cons_iff in Hfields as [Hlm Hrest].
    apply Forall_cons_iff in Hrest as [Hnt _].
    split; [lia|]. split; [symmetry; exact Hjoin|]. split; assumption.
  - split; [reflexivity | lia].
Qed.

End CommandLineProperties.

Section SessionProperties.

Context {network : Network}.
Variable parse_credentials : string -> string * string * string.
Variable getpass : string -> string.


(** X24.  With [-use-ldaps] every connection tried is an LDAPS connection on
    port 636, at most two are tried, and the second one, with TLS 1.0, is
    tried only after [LDAPSocketOpenError] on the first one, with TLS 1.2;
    without it a single connection is tried, in clear on port 389.  The
    session returned is the last connection tried. *)
Theorem session_transport (args : Args) (domain username password lmhash nthash : string) :
  let tried := fst (init_ldap_session args domain username password lmhash nthash) in
  Forall (fun r => conn_use_ssl r = use_ldaps args
                   /\ conn_port r = (if use_ldaps args then 636 else 389)
                   /\ (conn_tls r = None <-> use_ldaps args = false)) tried
  /\ (List.length tried <= (if use_ldaps args then 2 else 1))%nat
  /\ (forall first second,
        tried = [first; second] ->
        conn_tls first = Some PROTOCOL_TLSv1_2
        /\ conn_tls second = Some PROTOCOL_TLSv1
        /\ connect first = Some LDAPSocketOpenError)
  /\ (forall session,
        snd (init_ldap_session args domain username password lmhash nthash) = inl session ->
        connect session = None /\ last tried session = session /\ tried <> []).
Proof.
  unfold init_ldap_session, init_ldap_connection.
  destruct (if k args then get_machine_name args domain
            else match dc_ip args with Some ip => inl ip | None => inl domain end)
    as [target|e].
  2:{ cbn [fst snd]. split; [constructor|]. split; [destruct (use_ldaps args); cbn; lia|].
      split; [discriminate|]. discriminate. }
  destruct (use_ldaps args).
  - destruct (connect (connection_request_of target (Some PROTOCOL_TLSv1_2) args
                         domain username password lmhash nthash)) as [[|message|]|] eqn:E1.
    + destruct (connect (connection_request_of target (Some PROTOCOL_TLSv1) args
                           domain username password lmhash nthash)) as [e2|] eqn:E2;
        cbn [fst snd app List.length].
      * split; [repeat (apply Forall_cons || apply Forall_nil);
                repeat split; try reflexivity; discriminate|].
        split; [lia|]. split; [|discriminate].
        intros first second [= <- <-]. repeat split. exact E1.
      * split; [repeat (apply Forall_cons || apply Forall_nil);
                repeat split; try reflexivity; discriminate|].
        split; [lia|]. split.
        -- intros first second [= <- <-]. repeat split. exact E1.
        -- intros session [= <-]. repeat split; [exact E2 | discriminate].
    + cbn [fst snd app List.length].
      split; [repeat (apply Forall_cons || apply Forall_nil);
              repeat split; try reflexivity; discriminate|].
      split; [lia|]. split; discriminate.
    + cbn [fst snd app List.length].
      split; [repeat (apply Forall_cons || apply Forall_nil);
              repeat split; try reflexivity; discriminate|].
      split; [lia|]. split; discriminate.
    + cbn [fst snd app List.length].
      split; [repeat (apply Forall_cons || apply Forall_nil);
              repeat split; try reflexivity; discriminate|].
      split; [lia|]. split; [discriminate|].
      intros session [= <-]. repeat split; [exact E1 | discriminate].
  - destruct (connect (connection_request_of target None args
                         domain username password lmhash nthash)) as [e|] eqn:E;
      cbn [fst snd app List.length].
    + split; [repeat (apply Forall_cons || apply Forall_nil); repeat split; reflexivity|].
      split; [lia|]. split; discriminate.
    + split; [repeat (apply Forall_cons || apply Forall_nil); repeat split; reflexivity|].
      split; [lia|]. split; [discriminate|].
      intros session [= <-]. repeat split; [exact E | discriminate].
Qed.

(** X25.  An AES key forces Kerberos: when [-aesKey] is given and
    [parse_identity] returns, it has set [args.k], and [init_ldap_session]
    run on those arguments, whatever LM hash it is given, takes its target
    from [get_machine_name] and tries nothing but Kerberos connections
    carrying that key; when [get_machine_name] raises, no connection is tried
    and the exception goes through. *)
Theorem aesKey_forces_kerberos (args args' : Args) (key : string)
    (domain username password lmhash nthash lmhash' : string) :
  aesKey args = Some key ->
  identity_ending (parse_identity parse_credentials getpass args)
  = Returns (args', (domain, username, password, lmhash, nthash)) ->
  k args' = true
  /\ identity_prompts (parse_identity parse_credentials getpass args) = []
  /\ match get_machine_name args domain with
     | inr e => init_ldap_session args' domain username password lmhash' nthash
                = ([], inr e)
     | inl name =>
         Forall (fun r => conn_target r = name
                          /\ conn_authentication r
                             = Kerberos username password domain lmhash' nthash
                                 (Some key) (dc_ip args))
           (fst (init_ldap_session args' domain username password lmhash' nthash))
     end.
Proof.
  intros Hkey. unfold parse_identity.
  destruct (parse_credentials (identity args)) as [[domain0 username0] password0].
  destruct (String.eqb domain0 ""); [discriminate|].
  rewrite Hkey. cbn [is_None]. rewrite !andb_false_r. cbn [identity_ending identity_prompts].
  assert (forall lm nt,
            Returns (set_k args, (domain0, username0, password0, lm, nt))
            = Returns (args', (domain, username, password, lmhash, nthash)) ->
            args' = set_k args) as Hargs by (intros lm nt [= <-]; reflexivity).
  intros Hend.
  assert (args' = set_k args) as ->.
  { cbn [hashes set_k] in Hend. destruct (hashes args) as [h|].
    - destruct (split_colon h) as [|lm [|nt [|x more]]]; try discriminate.
      eapply Hargs; exact Hend.
    - eapply Hargs; exact Hend. }
  split; [reflexivity|]. split; [reflexivity|].
  unfold init_ldap_session, init_ldap_connection. cbn [k set_k dc_ip use_ldaps].
  change (get_machine_name (set_k args) domain) with (get_machine_name args domain).
  destruct (get_machine_name args domain) as [name|e]; [|reflexivity].
  unfold connection_request_of. cbn [k set_k aesKey dc_ip]. rewrite Hkey.
  destruct (use_ldaps args).
  - destruct (connect _) as [[|message|]|]; [destruct (connect _)| | |]; cbn [fst snd app];
      repeat (apply Forall_cons || apply Forall_nil); split; reflexivity.
  - destruct (connect _); cbn [fst snd app];
      repeat (apply Forall_cons || apply Forall_nil); split; reflexivity.
Qed.

End SessionProperties.

(** The same on the test bench. *)

Lemma parse_identity_hashes_witness :
  identity_prompts (parse_identity bench_parse_credentials bench_getpass bench_args) = []
  /\ match identity_ending (parse_identity bench_parse_credentials bench_getpass bench_args)
     with
     | Returns (_, (_, _, _, lmhash, nthash)) =>
         colons ":31d6cfe0d16ae931b73c59d7e0c089c0" = 1%nat
         /\ ":31d6cfe0d16ae931b73c59d7e0c089c0" = (lmhash ++ ":" ++ nthash)%string
         /\ colons lmhash = 0%nat /\ colons nthash = 0%nat
     | Raises e => e = ValueError /\ colons ":31d6cfe0d16ae931b73c59d7e0c089c0" <> 1%nat
     | Exits _ => False
     end.
Proof.
  refine (parse_identity_hashes bench_parse_credentials bench_getpass bench_args
            ":31d6cfe0d16ae931b73c59d7e0c089c0" eq_refl _).
  discriminate.
Defined.


Lemma session_transport_witness :
  conn_tls (@connection_request_of "dc01" (Some PROTOCOL_TLSv1_2) (set_k bench_args)
              "corp.local" "alice" "" "" "31d6cfe0d16ae931b73c59d7e0c089c0")
  = Some PROTOCOL_TLSv1_2
  /\ conn_tls (@connection_request_of "dc01" (Some PROTOCOL_TLSv1) (set_k bench_args)
                 "corp.local" "alice" "" "" "31d6cfe0d16ae931b73c59d7e0c089c0")
     = Some PROTOCOL_TLSv1
  /\ @connect bench_network
       (@connection_request_of "dc01" (Some PROTOCOL_TLSv1_2) (set_k bench_args)
          "corp.local" "alice" "" "" "31d6cfe0d16ae931b73c59d7e0c089c0")
     = Some LDAPSocketOpenError.
Proof.
  exact (proj1 (proj2 (proj2
           (@session_transport bench_network (set_k bench_args)
              "corp.local" "alice" "" "" "31d6cfe0d16ae931b73c59d7e0c089c0")))
           _ _ eq_refl).
Defined.

Lemma aesKey_forces_kerberos_witness :
  k (set_k bench_args) = true
  /\ identity_prompts (parse_identity bench_parse_credentials bench_getpass bench_args) = []
  /\ Forall (fun r => conn_target r = "dc01"
                      /\ conn_authentication r
                         = Kerberos "alice" "" "corp.local"
                             "aad3b435b51404eeaad3b435b51404ee"
                             "31d6cfe0d16ae931b73c59d7e0c089c0"
                             (Some "000102030405060708090a0b0c0d0e0f") None)
       (fst (@init_ldap_session bench_network (set_k bench_args)
               "corp.local" "alice" "" "aad3b435b51404eeaad3b435b51404ee"
               "31d6cfe0d16ae931b73c59d7e0c089c0")).
Proof.
  exact (@aesKey_forces_kerberos bench_network bench_parse_credentials bench_getpass
           bench_args (set_k bench_args) "000102030405060708090a0b0c0d0e0f"
           "corp.local" "alice" "" "" "31d6cfe0d16ae931b73c59d7e0c089c0"
           "aad3b435b51404eeaad3b435b51404ee" eq_refl eq_refl).
Defined.
